(** * Verification of the page-frame scanners of kernel-contiguous

    A shallow embedding of [drgn_scripts/scan_unmovable.py] (the coarse,
    three-way scan) and [drgn_scripts/scan_unmovable_johannes.py] (the fine,
    nine-way scan), and the properties of their classification, aggregation,
    coalescing and statistics code.

    Python integers are [Z]; kernel fields that are unsigned in the kernel
    (a free page's order, a compound order) are [N]; Python sets of PFNs are
    [gset Z]; Python lists are [list]; Python floats are IEEE binary64 values
    ([spec_float] at precision 53). *)

From Stdlib Require Import ZArith Lia List Bool.
From Corelib Require Import SpecFloat.
From stdpp Require Import base decidable numbers list strings sets gmap fin_sets sorting.

Local Open Scope Z_scope.

(** ** Outcomes of a Python run *)

(** What stops a script before its last line. *)
Inductive py_stop : Type :=
| AssertionError (line : Z)
| IndexError
| ValueError
| OverflowError
| ZeroDivisionError
| AttributeError
| MemoryError
| SystemExit (code : Z).

(** A run either yields a value, stops, or (in a fuelled loop) has not
    finished within the given number of iterations. *)
Inductive run (A : Type) : Type :=
| Ret (a : A)
| Stop (e : py_stop)
| OutOfFuel.
Arguments Ret {A} a.
Arguments Stop {A} e.
Arguments OutOfFuel {A}.

#[global] Instance run_ret : MRet run := fun A a => Ret a.
#[global] Instance run_bind : MBind run := fun A B k m =>
  match m with
  | Ret a => k a
  | Stop e => Stop e
  | OutOfFuel => OutOfFuel
  end.

Definition py_assert (line : Z) (b : bool) : run unit :=
  if b then Ret tt else Stop (AssertionError line).


(** ** Region coalescer: [build_list] (scan_unmovable.py, lines 152-159) *)

Module Coalesce.

(** [for pfn in prev_set: ...]: the loop body, as a fold step over the set. *)
Definition build_step (prev_set : gset Z) (order : N) (pfn : Z)
    (this_set : gset Z) : gset Z :=
  let buddy_pfn := Z.lxor pfn (Z.shiftl 1 (Z.of_N order)) in
  if bool_decide (buddy_pfn > pfn) && bool_decide (buddy_pfn ∈ prev_set) then
    let combined_pfn := Z.land buddy_pfn pfn in
    {[ combined_pfn ]} ∪ this_set
  else this_set.

Definition build_list (prev_set : gset Z) (order : N) : gset Z :=
  set_fold (build_step prev_set order) ∅ prev_set.

(** The characterisation the specification gives in words: the members of
    the previous set whose buddy is larger and present. *)
Definition buddy_of (p : Z) (k : N) : Z := Z.lxor p (Z.shiftl 1 (Z.of_N k)).

Definition coalescible (S : gset Z) (k : N) (p : Z) : Prop :=
  p ∈ S ∧ buddy_of p k ∈ S ∧ buddy_of p k > p.

End Coalesce.

(** ** Statistics reporter: [percentile] (scan_unmovable.py, lines 51-70) *)

Module Stats.

(** Python's [float] is IEEE binary64, rounded to nearest even. *)
Definition prec : Z := 53.
Definition emax : Z := 1024.

Definition fmul : spec_float -> spec_float -> spec_float := SFmul prec emax.
Definition fadd : spec_float -> spec_float -> spec_float := SFadd prec emax.
Definition fsub : spec_float -> spec_float -> spec_float := SFsub prec emax.
Definition fdiv : spec_float -> spec_float -> spec_float := SFdiv prec emax.

(** The conversion Python applies to an [int] operand of mixed arithmetic;
    it raises when the integer is beyond the largest finite double. *)
Definition float_of_int (n : Z) : run spec_float :=
  match binary_normalize prec emax n 0 false with
  | S754_infinity _ => Stop OverflowError
  | x => Ret x
  end.

(** The value of a finite double is [(if s then -m else m) * 2^e];
    [Z.shiftl] by a negative amount divides rounding down. *)
Definition math_floor (x : spec_float) : run Z :=
  match x with
  | S754_zero _ => Ret 0
  | S754_finite s m e => Ret (Z.shiftl (cond_Zopp s (Z.pos m)) e)
  | S754_infinity _ => Stop OverflowError
  | S754_nan => Stop ValueError
  end.

Definition math_ceil (x : spec_float) : run Z :=
  match x with
  | S754_zero _ => Ret 0
  | S754_finite s m e => Ret (- Z.shiftl (cond_Zopp (negb s) (Z.pos m)) e)
  | S754_infinity _ => Stop OverflowError
  | S754_nan => Stop ValueError
  end.

(** [int(x)] of a float truncates towards zero. *)
Definition py_int (x : spec_float) : run Z :=
  match x with
  | S754_zero _ => Ret 0
  | S754_finite s m e => Ret (cond_Zopp s (Z.shiftl (Z.pos m) e))
  | S754_infinity _ => Stop OverflowError
  | S754_nan => Stop ValueError
  end.

(** [l[i]]: a negative index counts from the end. *)
Definition py_index (l : list Z) (i : Z) : run Z :=
  let j := if i <? 0 then i + Z.of_nat (length l) else i in
  if j <? 0 then Stop IndexError
  else match l !! Z.to_nat j with
       | Some x => Ret x
       | None => Stop IndexError
       end.

Definition percentile (N : list Z) (percent : spec_float) (key : Z -> Z)
    : run (option Z) :=
  if bool_decide (N = []) then Ret None
  else
    n1 ← float_of_int (Z.of_nat (length N) - 1);
    let k := fmul n1 percent in
    f ← math_floor k;
    c ← math_ceil k;
    if bool_decide (f = c) then
      ik ← py_int k;
      x ← py_index N ik;
      Ret (Some (key x))
    else
      x0 ← py_index N f;
      cf ← float_of_int c;
      kx0 ← float_of_int (key x0);
      let d0 := fmul kx0 (fsub cf k) in
      x1 ← py_index N c;
      ff ← float_of_int f;
      kx1 ← float_of_int (key x1);
      let d1 := fmul kx1 (fsub k ff) in
      r ← py_int (fadd d0 d1);
      Ret (Some r).

(** The percentile as the specification words it: no value for an empty
    array; with rank [(n-1) * p], the element at the rank when its floor and
    ceiling agree, else the truncated interpolation between the elements at
    the floor and at the ceiling. *)
Definition rank (N : list Z) (p : spec_float) : run spec_float :=
  n1 ← float_of_int (Z.of_nat (length N) - 1); Ret (fmul n1 p).

(** [int(N[f] * (c - k) + N[c] * (k - f))], its operands evaluated from
    left to right as Python does. *)
Definition interpolate (N : list Z) (f c : Z) (k : spec_float) : run Z :=
  lo ← py_index N f;
  cf ← float_of_int c;
  flo ← float_of_int lo;
  hi ← py_index N c;
  ff ← float_of_int f;
  fhi ← float_of_int hi;
  py_int (fadd (fmul flo (fsub cf k)) (fmul fhi (fsub k ff))).

Definition percentile_spec (N : list Z) (p : spec_float) : run (option Z) :=
  match N with
  | [] => Ret None
  | _ :: _ =>
      k ← rank N p;
      f ← math_floor k;
      c ← math_ceil k;
      if bool_decide (f = c) then
        x ← py_index N f; Ret (Some x)
      else
        r ← interpolate N f c k; Ret (Some r)
  end.

(** The literals [0.50] and [0.99]: the doubles nearest to 1/2 and 99/100. *)
Definition float_0_50 : spec_float := fdiv (binary_normalize prec emax 1 0 false)
                                           (binary_normalize prec emax 2 0 false).
Definition float_0_99 : spec_float := fdiv (binary_normalize prec emax 99 0 false)
                                           (binary_normalize prec emax 100 0 false).

End Stats.

(** ** The coarse scan (scan_unmovable.py) *)

Module Coarse.

(** *** Memory-layout constants (lines 13-47) *)

Definition BITS_PER_LONG : Z := 64.
Definition pageblock_nr_pages : Z := 512.
Definition pageblock_order : Z := 9.
Definition PAGE_SHIFT : Z := 12.
Definition PAGE_SIZE : Z := Z.shiftl 1 PAGE_SHIFT.
Definition SECTION_SIZE_BITS : Z := 27.
Definition PFN_SECTION_SHIFT : Z := SECTION_SIZE_BITS - PAGE_SHIFT.
Definition PAGES_PER_SECTION : Z := Z.shiftl 1 PFN_SECTION_SHIFT.
Definition PAGE_SECTION_MASK : Z := Z.lnot (PAGES_PER_SECTION - 1).
Definition PB_migratetype_bits : Z := 3.
Definition MIGRATETYPE_MASK : Z := Z.shiftl 1 PB_migratetype_bits - 1.
Definition PAGE_TYPE_BASE : Z := 0xF0000000.
Definition PG_buddy : Z := 0x00000080.
Definition MAX_ORDER : Z := 11.
Definition MAX_ORDER_NR_PAGES : Z := Z.shiftl 1 (MAX_ORDER - 1).
Definition PAGE_MAPPING_ANON : Z := 0x1.
Definition PAGE_MAPPING_MOVABLE : Z := 0x2.
Definition PAGE_MAPPING_FLAGS : Z := Z.lor PAGE_MAPPING_ANON PAGE_MAPPING_MOVABLE.
Definition SECTION_IS_ONLINE : Z := Z.shiftl 1 2.
Definition SECTION_HAS_MEM_MAP : Z := Z.shiftl 1 1.
Definition SUBSECTION_SHIFT : Z := 21.
Definition PFN_SUBSECTION_SHIFT : Z := SUBSECTION_SHIFT - PAGE_SHIFT.
Definition PAGES_PER_SUBSECTION : Z := Z.shiftl 1 PFN_SUBSECTION_SHIFT.

(** *** The snapshot read through drgn *)

(** The fields of [struct page] the script reads.  [private] and
    [compound_order] are unsigned in the kernel. *)
Record page : Type := {
  flags : Z;
  page_type : Z;
  compound_head : Z;
  private : N;
  mapping : Z;
  compound_order_field : N
}.

(** A [struct mem_section] reached through a pointer: its address, its
    [section_mem_map] word, [usage.subsection_map[0]] and the words of
    [usage.pageblock_flags]. *)
Record mem_section : Type := {
  ms_address : Z;
  section_mem_map : Z;
  subsection_map0 : Z;
  pageblock_flags : Z -> Z
}.

(** The drgn program object [prog]: kernel globals, enum values, type sizes
    and memory. *)
Record prog : Type := {
  max_pfn : Z;
  sizeof_mem_section : Z;
  NR_PAGEBLOCK_BITS : Z;
  PG_reserved : Z;
  PG_head : Z;
  PG_lru : Z;
  PG_slab : Z;
  MIGRATE_UNMOVABLE : Z;
  mem_section_at : Z -> Z -> mem_section;
  pfn_to_page : Z -> page
}.

(** *** The variables of the walk (lines 187-207) *)

(** The lists and counters that live across blocks, the cursor [pfn], and the
    three tallies that are reset at the start of every block. *)
Record state : Type := {
  movable_2mb_pfns : list Z;
  free_4mb_pfns : list Z;
  regular_blocks : Z;
  unmovable_pages_in_unmovable_blocks : list Z;
  movable_pages_in_unmovable_blocks : list Z;
  pfn : Z;
  unmovable_pages : Z;
  movable_pages : Z;
  reserved_pages : Z
}.

Definition set_movable_2mb_pfns (v : list Z) (s : state) : state :=
  {| movable_2mb_pfns := v; free_4mb_pfns := free_4mb_pfns s;
     regular_blocks := regular_blocks s;
     unmovable_pages_in_unmovable_blocks := unmovable_pages_in_unmovable_blocks s;
     movable_pages_in_unmovable_blocks := movable_pages_in_unmovable_blocks s;
     pfn := pfn s; unmovable_pages := unmovable_pages s;
     movable_pages := movable_pages s; reserved_pages := reserved_pages s |}.
Definition set_free_4mb_pfns (v : list Z) (s : state) : state :=
  {| movable_2mb_pfns := movable_2mb_pfns s; free_4mb_pfns := v;
     regular_blocks := regular_blocks s;
     unmovable_pages_in_unmovable_blocks := unmovable_pages_in_unmovable_blocks s;
     movable_pages_in_unmovable_blocks := movable_pages_in_unmovable_blocks s;
     pfn := pfn s; unmovable_pages := unmovable_pages s;
     movable_pages := movable_pages s; reserved_pages := reserved_pages s |}.
Definition set_regular_blocks (v : Z) (s : state) : state :=
  {| movable_2mb_pfns := movable_2mb_pfns s; free_4mb_pfns := free_4mb_pfns s;
     regular_blocks := v;
     unmovable_pages_in_unmovable_blocks := unmovable_pages_in_unmovable_blocks s;
     movable_pages_in_unmovable_blocks := movable_pages_in_unmovable_blocks s;
     pfn := pfn s; unmovable_pages := unmovable_pages s;
     movable_pages := movable_pages s; reserved_pages := reserved_pages s |}.
Definition set_unmovable_samples (v : list Z) (s : state) : state :=
  {| movable_2mb_pfns := movable_2mb_pfns s; free_4mb_pfns := free_4mb_pfns s;
     regular_blocks := regular_blocks s;
     unmovable_pages_in_unmovable_blocks := v;
     movable_pages_in_unmovable_blocks := movable_pages_in_unmovable_blocks s;
     pfn := pfn s; unmovable_pages := unmovable_pages s;
     movable_pages := movable_pages s; reserved_pages := reserved_pages s |}.
Definition set_movable_samples (v : list Z) (s : state) : state :=
  {| movable_2mb_pfns := movable_2mb_pfns s; free_4mb_pfns := free_4mb_pfns s;
     regular_blocks := regular_blocks s;
     unmovable_pages_in_unmovable_blocks := unmovable_pages_in_unmovable_blocks s;
     movable_pages_in_unmovable_blocks := v;
     pfn := pfn s; unmovable_pages := unmovable_pages s;
     movable_pages := movable_pages s; reserved_pages := reserved_pages s |}.
Definition set_pfn (v : Z) (s : state) : state :=
  {| movable_2mb_pfns := movable_2mb_pfns s; free_4mb_pfns := free_4mb_pfns s;
     regular_blocks := regular_blocks s;
     unmovable_pages_in_unmovable_blocks := unmovable_pages_in_unmovable_blocks s;
     movable_pages_in_unmovable_blocks := movable_pages_in_unmovable_blocks s;
     pfn := v; unmovable_pages := unmovable_pages s;
     movable_pages := movable_pages s; reserved_pages := reserved_pages s |}.
Definition set_unmovable_pages (v : Z) (s : state) : state :=
  {| movable_2mb_pfns := movable_2mb_pfns s; free_4mb_pfns := free_4mb_pfns s;
     regular_blocks := regular_blocks s;
     unmovable_pages_in_unmovable_blocks := unmovable_pages_in_unmovable_blocks s;
     movable_pages_in_unmovable_blocks := movable_pages_in_unmovable_blocks s;
     pfn := pfn s; unmovable_pages := v;
     movable_pages := movable_pages s; reserved_pages := reserved_pages s |}.
Definition set_movable_pages (v : Z) (s : state) : state :=
  {| movable_2mb_pfns := movable_2mb_pfns s; free_4mb_pfns := free_4mb_pfns s;
     regular_blocks := regular_blocks s;
     unmovable_pages_in_unmovable_blocks := unmovable_pages_in_unmovable_blocks s;
     movable_pages_in_unmovable_blocks := movable_pages_in_unmovable_blocks s;
     pfn := pfn s; unmovable_pages := unmovable_pages s;
     movable_pages := v; reserved_pages := reserved_pages s |}.
Definition set_reserved_pages (v : Z) (s : state) : state :=
  {| movable_2mb_pfns := movable_2mb_pfns s; free_4mb_pfns := free_4mb_pfns s;
     regular_blocks := regular_blocks s;
     unmovable_pages_in_unmovable_blocks := unmovable_pages_in_unmovable_blocks s;
     movable_pages_in_unmovable_blocks := movable_pages_in_unmovable_blocks s;
     pfn := pfn s; unmovable_pages := unmovable_pages s;
     movable_pages := movable_pages s; reserved_pages := v |}.

Section WithProg.
Variable P : prog.

Definition SECTIONS_PER_ROOT : Z := PAGE_SIZE / sizeof_mem_section P.
Definition SECTION_ROOT_MASK : Z := SECTIONS_PER_ROOT - 1.
Definition PG_reserved_mask : Z := Z.shiftl 1 (PG_reserved P).
Definition PG_head_mask : Z := Z.shiftl 1 (PG_head P).
Definition PG_lru_mask : Z := Z.shiftl 1 (PG_lru P).
Definition PG_slab_mask : Z := Z.shiftl 1 (PG_slab P).

(** *** Helpers (lines 73-149) *)

Definition align (x a : Z) : Z :=
  if negb (x mod a =? 0) then x + (a - x mod a) else x.

Definition test_bit (x mask : Z) : bool := Z.land x mask =? mask.

Definition pfn_to_section (pfn : Z) : mem_section :=
  let pfn_section_nr := Z.shiftr pfn PFN_SECTION_SHIFT in
  mem_section_at P (pfn_section_nr / SECTIONS_PER_ROOT)
                   (Z.land pfn_section_nr SECTION_ROOT_MASK).

Definition get_pfnblock_flags_mask (pfn mask : Z) : Z :=
  let pfn_section := pfn_to_section pfn in
  let bitmap := pageblock_flags pfn_section in
  let pfn := Z.land pfn (PAGES_PER_SECTION - 1) in
  let bitidx := Z.shiftr pfn pageblock_order * NR_PAGEBLOCK_BITS P in
  let word_bitidx := bitidx / BITS_PER_LONG in
  let bitidx := Z.land bitidx (BITS_PER_LONG - 1) in
  let word := bitmap word_bitidx in
  Z.land (Z.shiftr word bitidx) mask.

Definition PageBuddy (pg : page) : bool :=
  Z.land (page_type pg) (Z.lor PAGE_TYPE_BASE PG_buddy) =? PAGE_TYPE_BASE.

Definition PageReserved (pg : page) : bool := test_bit (flags pg) PG_reserved_mask.

Definition PageCompound (pg : page) : bool :=
  test_bit (flags pg) PG_head_mask || negb (Z.land (compound_head pg) 1 =? 0).

(** [page[1]] is the page structure that follows [page]; [pfn] is the
    frame number [page] was obtained from. *)
Definition compound_order (pfn : Z) (pg : page) : Z :=
  if negb (test_bit (flags pg) PG_head_mask) then 0
  else Z.of_N (compound_order_field (pfn_to_page P (pfn + 1))).

Definition PageLRU (pg : page) : bool := test_bit (flags pg) PG_lru_mask.

Definition PageSlab (pg : page) : bool := test_bit (flags pg) PG_slab_mask.

Definition PageMovable (pg : page) : bool :=
  Z.land (mapping pg) PAGE_MAPPING_FLAGS =? PAGE_MAPPING_MOVABLE.

Definition pfn_online (pfn : Z) : bool :=
  let pfn_section := pfn_to_section pfn in
  if ms_address pfn_section =? 0 then false
  else if Z.land (section_mem_map pfn_section) SECTION_IS_ONLINE =? 0 then false
  else if Z.land (section_mem_map pfn_section) SECTION_HAS_MEM_MAP =? 0 then false
  else
    let idx := Z.land pfn (Z.lnot PAGE_SECTION_MASK) / PAGES_PER_SUBSECTION in
    if negb (test_bit (subsection_map0 pfn_section) (Z.shiftl 1 idx)) then false
    else true.

(** *** The walk (lines 187-285) *)

(** [pfn += d], [movable_pages += d] and so on. *)
Definition add_pfn (d : Z) (s : state) : state :=
  set_pfn (pfn s + d) s.
Definition add_movable (d : Z) (s : state) : state :=
  set_movable_pages (movable_pages s + d) s.
Definition add_unmovable (d : Z) (s : state) : state :=
  set_unmovable_pages (unmovable_pages s + d) s.
Definition add_reserved (d : Z) (s : state) : state :=
  set_reserved_pages (reserved_pages s + d) s.
Definition add_regular (d : Z) (s : state) : state :=
  set_regular_blocks (regular_blocks s + d) s.
Definition append_movable_2mb (x : Z) (s : state) : state :=
  set_movable_2mb_pfns (movable_2mb_pfns s ++ [x]) s.
Definition append_free_4mb (x : Z) (s : state) : state :=
  set_free_4mb_pfns (free_4mb_pfns s ++ [x]) s.
Definition append_unmovable_sample (x : Z) (s : state) : state :=
  set_unmovable_samples (unmovable_pages_in_unmovable_blocks s ++ [x]) s.
Definition append_movable_sample (x : Z) (s : state) : state :=
  set_movable_samples (movable_pages_in_unmovable_blocks s ++ [x]) s.

(** Lines 222-235: a free page. *)
Definition buddy_branch (block_start_pfn block_end_pfn : Z) (pg : page)
    (s : state) : run state :=
  let freepage_order := Z.of_N (private pg) in
  let s := if freepage_order <? MAX_ORDER
           then add_pfn (Z.shiftl 1 freepage_order - 1) s else s in
  let s := add_pfn 1 s in
  if pfn s >? block_end_pfn then
    _ ← py_assert 230 (freepage_order =? 10);
    let s := add_regular 1 s in
    let s := append_movable_2mb block_start_pfn s in
    let s := append_movable_2mb (block_start_pfn + pageblock_nr_pages) s in
    let s := append_free_4mb block_start_pfn s in
    Ret s
  else Ret s.

(** Lines 237-257: a compound page. *)
Definition compound_branch (block_start_pfn block_end_pfn : Z) (pg : page)
    (s : state) : run state :=
  let order := compound_order (pfn s) pg in
  s ← (if order <? MAX_ORDER then
         let s := add_pfn (Z.shiftl 1 order - 1) s in
         if PageLRU pg then
           let s := add_movable (Z.min (Z.shiftl 1 order - 1) 511) s in
           _ ← py_assert 243 (order =? 9);
           Ret (append_movable_2mb block_start_pfn s)
         else
           Ret (add_unmovable (Z.min (Z.shiftl 1 order - 1) 511) s)
       else Ret s);
  let s := add_pfn 1 s in
  let s := if PageLRU pg then add_movable 1 s else add_unmovable 1 s in
  if pfn s >? block_end_pfn then
    _ ← py_assert 254 (order =? 10);
    let s := append_unmovable_sample 512 s in
    let s := append_movable_sample 0 s in
    Ret s
  else Ret s.

(** Lines 220-271: one pass through the body of the inner [while]. *)
Definition block_body (block_start_pfn block_end_pfn : Z) (s : state)
    : run state :=
  let pg := pfn_to_page P (pfn s) in
  if PageBuddy pg then buddy_branch block_start_pfn block_end_pfn pg s
  else if PageCompound pg then compound_branch block_start_pfn block_end_pfn pg s
  else if PageReserved pg then Ret (add_pfn 1 (add_reserved 1 s))
  else if PageLRU pg || PageMovable pg then Ret (add_pfn 1 (add_movable 1 s))
  else Ret (add_pfn 1 (add_unmovable 1 s)).

(** Line 219: [while pfn < block_end_pfn]. *)
Fixpoint block_loop (fuel : nat) (block_start_pfn block_end_pfn : Z)
    (s : state) : run state :=
  if pfn s <? block_end_pfn then
    match fuel with
    | O => OutOfFuel
    | S fuel =>
        s ← block_body block_start_pfn block_end_pfn s;
        block_loop fuel block_start_pfn block_end_pfn s
    end
  else Ret s.

(** Lines 278-285: what becomes of a finished block. *)
Definition aggregate (block_start_pfn : Z) (s : state) : state :=
  if reserved_pages s =? 512 then s
  else if unmovable_pages s =? 0 then
    append_movable_2mb block_start_pfn (add_regular 1 s)
  else
    append_movable_sample (movable_pages s)
      (append_unmovable_sample (unmovable_pages s) s).

(** Lines 197-285: one pass through the body of the outer [while].  The
    inner loop moves [pfn] forward at every pass, so the distance to the
    end of the block bounds its passes. *)
Definition scan_body (boundary_pfn : Z) (s : state) : run state :=
  if negb (pfn_online (pfn s)) then
    Ret (set_pfn (align (pfn s + 1) MAX_ORDER_NR_PAGES) s)
  else
    let s := set_unmovable_pages 0 s in
    let s := set_movable_pages 0 s in
    let s := set_reserved_pages 0 s in
    let block_start_pfn := pfn s in
    let block_end_pfn := align (pfn s + 1) pageblock_nr_pages in
    let block_end_pfn := Z.min block_end_pfn (max_pfn P) in
    if pfn s >? boundary_pfn then
      let s := add_regular 1 s in
      let s := append_movable_2mb block_start_pfn s in
      let s := add_movable 512 s in
      Ret (set_pfn block_end_pfn s)
    else
      s ← block_loop (Z.to_nat (block_end_pfn - pfn s))
                     block_start_pfn block_end_pfn s;
      Ret (aggregate block_start_pfn s).

(** Line 196: [while pfn < max_pfn]. *)
Fixpoint scan_loop (fuel : nat) (boundary_pfn : Z) (s : state) : run state :=
  if pfn s <? max_pfn P then
    match fuel with
    | O => OutOfFuel
    | S fuel => s ← scan_body boundary_pfn s; scan_loop fuel boundary_pfn s
    end
  else Ret s.

(** Lines 187-195: the state the walk starts from. *)
Definition initial : state :=
  {| movable_2mb_pfns := []; free_4mb_pfns := []; regular_blocks := 0;
     unmovable_pages_in_unmovable_blocks := [];
     movable_pages_in_unmovable_blocks := [];
     pfn := 0; unmovable_pages := 0; movable_pages := 0; reserved_pages := 0 |}.

(** The whole walk.  Every pass of the outer loop moves [pfn] forward, so
    [max_pfn] passes are enough. *)
Definition scan (boundary_pfn : Z) : run state :=
  scan_loop (Z.to_nat (max_pfn P)) boundary_pfn initial.

(** *** Vocabulary of the properties *)








(** What the fast path of lines 212-217 leaves of a block starting at
    [pfn s]. *)
Definition fast_path (s : state) : state :=
  let block_end_pfn :=
    Z.min (align (pfn s + 1) pageblock_nr_pages) (max_pfn P) in
  set_pfn block_end_pfn
    (add_movable 512
       (append_movable_2mb (pfn s)
          (add_regular 1
             (set_reserved_pages 0 (set_movable_pages 0 (set_unmovable_pages 0 s)))))).



(** *** The report (lines 287-348) *)

(** Lines 292-300: the free pages of every unmovable-bearing block. *)
Fixpoint free_pages (movable unmovable : list Z) : run (list Z) :=
  match unmovable with
  | [] => Ret []
  | u :: unmovable' =>
      match movable with
      | [] => Stop IndexError
      | m :: movable' =>
          let free_pages_in_this_block := 512 - m - u in
          _ ← py_assert 299 (free_pages_in_this_block >=? 0);
          rest ← free_pages movable' unmovable';
          Ret (free_pages_in_this_block :: rest)
      end
  end.

(** Lines 314-318 and 322-326: one [build_list] per order of the range,
    each from the set built before it, with the size of every set. *)
Fixpoint assemble (prev : gset Z) (orders : list N) : list (N * nat) :=
  match orders with
  | [] => []
  | i :: orders' =>
      let sz_set := Coalesce.build_list prev i in
      (i, size sz_set) :: assemble sz_set orders'
  end.

Definition movable_range : list N := [10; 11; 12; 13; 14; 15; 16; 17; 18]%N.
Definition free_range : list N := [11; 12; 13; 14; 15; 16; 17; 18]%N.

Record report : Type := {
  movable_order : list (N * nat);
  free_order : list (N * nat);
  rep_regular_blocks : Z;
  rep_unmovable_blocks : Z;
  rep_unmovable_percentage : spec_float;
  rep_unmovable_pages : Z;
  p50_free_pages : option Z;
  p99_free_pages : option Z;
  p50_movable_pages : option Z;
  p99_movable_pages : option Z;
  p50_unmovable_pages : option Z;
  p99_unmovable_pages : option Z
}.

Definition final_report (s : state) : run report :=
  let unmovable := unmovable_pages_in_unmovable_blocks s in
  let movable := movable_pages_in_unmovable_blocks s in
  let total_unmovable_pages := foldr Z.add 0 unmovable in
  _ ← py_assert 288 (Nat.eqb (length movable) (length unmovable));
  free ← free_pages movable unmovable;
  let free := merge_sort Z.le free in
  let movable := merge_sort Z.le movable in
  let unmovable := merge_sort Z.le unmovable in
  p50f ← Stats.percentile free Stats.float_0_50 id;
  p99f ← Stats.percentile free Stats.float_0_99 id;
  p50m ← Stats.percentile movable Stats.float_0_50 id;
  p99m ← Stats.percentile movable Stats.float_0_99 id;
  p50u ← Stats.percentile unmovable Stats.float_0_50 id;
  p99u ← Stats.percentile unmovable Stats.float_0_99 id;
  let movable_lines :=
    (9%N, length (movable_2mb_pfns s))
      :: assemble (list_to_set (movable_2mb_pfns s)) movable_range in
  let free_lines :=
    (10%N, length (free_4mb_pfns s))
      :: assemble (list_to_set (free_4mb_pfns s)) free_range in
  let unmovable_blocks :=
    Z.of_nat (length (unmovable_pages_in_unmovable_blocks s)) in
  fr ← Stats.float_of_int (regular_blocks s);
  fu ← Stats.float_of_int unmovable_blocks;
  let total := Stats.fadd fr fu in
  num ← Stats.float_of_int unmovable_blocks;
  match total with
  | S754_zero _ => Stop ZeroDivisionError
  | _ =>
      Ret {| movable_order := movable_lines;
             free_order := free_lines;
             rep_regular_blocks := regular_blocks s;
             rep_unmovable_blocks := unmovable_blocks;
             rep_unmovable_percentage := Stats.fdiv num total;
             rep_unmovable_pages := total_unmovable_pages;
             p50_free_pages := p50f; p99_free_pages := p99f;
             p50_movable_pages := p50m; p99_movable_pages := p99m;
             p50_unmovable_pages := p50u; p99_unmovable_pages := p99u |}
  end.

(** The script from its first line to its last, for a given boundary. *)
Definition run_script (boundary_pfn : Z) : run report :=
  s ← scan boundary_pfn; final_report s.

End WithProg.

(** *** The host boundary (lines 161-185) *)



End Coarse.

(** ** The fine scan (scan_unmovable_johannes.py) *)

Module Fine.

(** *** Constants (lines 13-31) *)

Definition __GFP_RECLAIMABLE : Z := 0x10.
Definition BITS_PER_LONG : Z := 64.
Definition PAGE_SHIFT : Z := 12.
Definition PAGE_SIZE : Z := Z.shiftl 1 PAGE_SHIFT.
Definition SECTION_SIZE_BITS : Z := 27.
Definition PFN_SECTION_SHIFT : Z := SECTION_SIZE_BITS - 12.
Definition PAGES_PER_SECTION : Z := Z.shiftl 1 PFN_SECTION_SHIFT.
Definition SECTION_HAS_MEM_MAP : Z := 2.
Definition pageblock_order : Z := 9.
Definition PB_migratetype_bits : Z := 3.
Definition MIGRATETYPE_MASK : Z := Z.shiftl 1 PB_migratetype_bits - 1.

(** *** The snapshot read through drgn *)

(** One [struct page] as the script sees it: the fields it reads, and the
    answers of the drgn helpers [PageReserved], [PageSlab], [PageLRU],
    [PageActive], [PageUptodate] and [compound_nr] (a power of two, so at
    least one frame). *)
Record page : Type := {
  PageReserved : bool;
  PageSlab : bool;
  PageLRU : bool;
  PageActive : bool;
  PageUptodate : bool;
  page_type_field : Z;
  slab_cache_allocflags : Z;
  mapping : Z;
  memcg_data : Z;
  _refcount : Z;
  private : N;
  compound_nr : positive
}.

Record mem_section : Type := {
  section_mem_map : Z;
  pageblock_flags : Z -> Z
}.

(** The drgn program object: [mem_section] is an array of pointers to
    arrays of sections, and a pointer may be null.  With it goes the
    machine the script runs on: Python integers have no fixed width, but
    the interpreter has to allocate the [n + 1] bits of [1 << n], and
    raises [MemoryError] when it cannot; [int_bits] is the largest shift
    count for which it can. *)
Record prog : Type := {
  min_low_pfn : Z;
  max_pfn : Z;
  sizeof_mem_section : Z;
  NR_PAGEBLOCK_BITS : Z;
  MIGRATE_UNMOVABLE : Z;
  MIGRATE_MOVABLE : Z;
  MIGRATE_RECLAIMABLE : Z;
  zsmalloc_mops : Z;
  mem_section_root : Z -> option (Z -> mem_section);
  pfn_to_page : Z -> page;
  int_bits : N
}.

(** *** The taxonomy (lines 65-75) *)

Inductive tag : Type :=
| BUDDY | LRU | SUNRECLAIM | SRECLAIM | ZSMALLOC | KMEM | RESERVED | UNREF | OTHER.

#[global] Instance tag_eq_dec : EqDecision tag.
Proof. solve_decision. Defined.

(** *** What the script prints *)

Inductive line : Type :=
| print_pfn (pfn : Z)
| skipping_invalid_section (pfn : Z)
| bogus_compound_size (pfn : Z) (nr : Z)
| print_page (pg : page)
| lru_page_in_unmovable (pfn : Z) (pg : page)
| lru_page_in_reclaimable (pfn : Z) (pg : page)
| unreclaimable_slab_page_in_movable (pfn : Z) (pg : page)
| reclaimable_slab_page_in_movable (pfn : Z) (pg : page)
| reclaimable_slab_page_in_unmovable (pfn : Z) (pg : page)
| other_page_in_reclaimable (pfn : Z) (pg : page).

(** A piece of the script either goes on with a value, or the run halts on
    an exception with what was printed so far, or a fuelled loop is cut
    short. *)
Inductive outcome (A : Type) : Type :=
| Go (a : A)
| Halt (e : py_stop) (printed : list line)
| Starved.
Arguments Go {A} a.
Arguments Halt {A} e printed.
Arguments Starved {A}.

#[global] Instance outcome_ret : MRet outcome := fun A a => Go a.
#[global] Instance outcome_bind : MBind outcome := fun A B k m =>
  match m with
  | Go a => k a
  | Halt e printed => Halt e printed
  | Starved => Starved
  end.

(** *** The variables of the walk (lines 121-156) *)

(** The per-block tallies and the offset [i] into the block. *)
Record block : Type := {
  buddy : Z;
  lru : Z;
  reserved : Z;
  slab : Z;
  kmem : Z;
  other : Z;
  block_has_nonmovable : bool;
  i : Z;
  printed_in_block : list line
}.

Record state : Type := {
  pfn : Z;
  pb : Z;
  types : gmap Z Z;
  slablru_in_unmovable : gmap string Z;
  nonslab_in_reclaimable : gmap string Z;
  nonlru_in_movable : gmap string Z;
  unmovable_with_slablru : Z;
  movable_with_nonlru : Z;
  reclaimable_with_nonslab : Z;
  blocks_with_nonmovable : Z;
  printed : list line
}.

Section WithProg.
Variable P : prog.

Definition SECTIONS_PER_ROOT : Z := PAGE_SIZE / sizeof_mem_section P.
Definition SECTION_ROOT_MASK : Z := SECTIONS_PER_ROOT - 1.

(** *** Section lookup and migratetype (lines 33-63) *)

Definition valid_section (ms : mem_section) : bool :=
  Z.land (section_mem_map ms) 2 =? 2.

Definition pfn_to_section_nr (pfn : Z) : Z := Z.shiftr pfn PFN_SECTION_SHIFT.

(** [pfn] is a drgn object, so [/] is C's integer division. *)
Definition SECTION_NR_TO_ROOT (nr : Z) : Z := nr / SECTIONS_PER_ROOT.

Definition __nr_to_section (nr : Z) : option mem_section :=
  match mem_section_root P (SECTION_NR_TO_ROOT nr) with
  | None => None
  | Some root => Some (root (Z.land nr SECTION_ROOT_MASK))
  end.

Definition __pfn_to_section (pfn : Z) : option mem_section :=
  __nr_to_section (pfn_to_section_nr pfn).

Definition section_to_usemap (ms : mem_section) : Z -> Z := pageblock_flags ms.

(** [None] is the attribute error of reading [usage] off Python's [None]. *)
Definition get_pfnblock_flags_mask (pfn mask : Z) : option Z :=
  match __pfn_to_section pfn with
  | None => None
  | Some ms =>
      let map := section_to_usemap ms in
      let bitidx := Z.shiftr (Z.land pfn (PAGES_PER_SECTION - 1)) pageblock_order
                    * NR_PAGEBLOCK_BITS P in
      let word_bitidx := bitidx / BITS_PER_LONG in
      let bitidx := Z.land bitidx (BITS_PER_LONG - 1) in
      let word := map word_bitidx in
      Some (Z.land (Z.shiftr word bitidx) mask)
  end.

Definition get_pageblock_migratetype (pfn : Z) : option Z :=
  get_pfnblock_flags_mask pfn MIGRATETYPE_MASK.

(** *** The classifier (lines 77-95) *)

(** The first test reads the module-level variable [page], the others the
    argument [p]. *)
Definition page_type (page p : page) : tag :=
  if PageReserved page then RESERVED
  else if Z.land (page_type_field p) (Z.lor 0xf0000000 0x00000080) =? 0xf0000000
  then BUDDY
  else if PageSlab p then
    if negb (Z.land (slab_cache_allocflags p) __GFP_RECLAIMABLE =? 0)
    then SRECLAIM else SUNRECLAIM
  else if mapping p =? zsmalloc_mops P + 2 then ZSMALLOC
  else if PageLRU p || PageActive p || PageUptodate p then LRU
  else if negb (Z.land (memcg_data p) 2 =? 0) then KMEM
  else if _refcount p =? 0 then UNREF
  else OTHER.

(** *** The walk (lines 121-256), run without [-d], where
    [dump_pageblock] returns at once *)

Definition add_buddy (nr : Z) (b : block) : block :=
  {| buddy := buddy b + nr; lru := lru b; reserved := reserved b;
     slab := slab b; kmem := kmem b; other := other b;
     block_has_nonmovable := block_has_nonmovable b; i := i b;
     printed_in_block := printed_in_block b |}.
Definition add_lru (nr : Z) (b : block) : block :=
  {| buddy := buddy b; lru := lru b + nr; reserved := reserved b;
     slab := slab b; kmem := kmem b; other := other b;
     block_has_nonmovable := block_has_nonmovable b; i := i b;
     printed_in_block := printed_in_block b |}.
Definition add_reserved (nr : Z) (b : block) : block :=
  {| buddy := buddy b; lru := lru b; reserved := reserved b + nr;
     slab := slab b; kmem := kmem b; other := other b;
     block_has_nonmovable := block_has_nonmovable b; i := i b;
     printed_in_block := printed_in_block b |}.
Definition add_slab (nr : Z) (b : block) : block :=
  {| buddy := buddy b; lru := lru b; reserved := reserved b;
     slab := slab b + nr; kmem := kmem b; other := other b;
     block_has_nonmovable := block_has_nonmovable b; i := i b;
     printed_in_block := printed_in_block b |}.
Definition add_kmem (nr : Z) (b : block) : block :=
  {| buddy := buddy b; lru := lru b; reserved := reserved b;
     slab := slab b; kmem := kmem b + nr; other := other b;
     block_has_nonmovable := block_has_nonmovable b; i := i b;
     printed_in_block := printed_in_block b |}.
Definition add_other (nr : Z) (b : block) : block :=
  {| buddy := buddy b; lru := lru b; reserved := reserved b;
     slab := slab b; kmem := kmem b; other := other b + nr;
     block_has_nonmovable := block_has_nonmovable b; i := i b;
     printed_in_block := printed_in_block b |}.
Definition set_nonmovable (b : block) : block :=
  {| buddy := buddy b; lru := lru b; reserved := reserved b;
     slab := slab b; kmem := kmem b; other := other b;
     block_has_nonmovable := true; i := i b;
     printed_in_block := printed_in_block b |}.
Definition add_i (nr : Z) (b : block) : block :=
  {| buddy := buddy b; lru := lru b; reserved := reserved b;
     slab := slab b; kmem := kmem b; other := other b;
     block_has_nonmovable := block_has_nonmovable b; i := i b + nr;
     printed_in_block := printed_in_block b |}.
Definition print (l : line) (b : block) : block :=
  {| buddy := buddy b; lru := lru b; reserved := reserved b;
     slab := slab b; kmem := kmem b; other := other b;
     block_has_nonmovable := block_has_nonmovable b; i := i b;
     printed_in_block := printed_in_block b ++ [l] |}.

(** [if mt == ...: print(...)]. *)
Definition print_if (c : bool) (l : line) (b : block) : block :=
  if c then print l b else b.

(** Lines 173-225: the tallies and findings of one classified page. *)
Definition account (pfn mt : Z) (pg : page) (t : tag) (nr : Z) (b : block)
    : block :=
  let here := pfn + i b in
  match t with
  | LRU =>
      let b := add_lru nr b in
      let b := print_if (mt =? MIGRATE_UNMOVABLE P)
                        (lru_page_in_unmovable here pg) b in
      print_if (mt =? MIGRATE_RECLAIMABLE P) (lru_page_in_reclaimable here pg) b
  | SUNRECLAIM =>
      let b := set_nonmovable b in
      let b := add_kmem nr b in
      print_if (mt =? MIGRATE_MOVABLE P)
               (unreclaimable_slab_page_in_movable here pg) b
  | SRECLAIM =>
      let b := add_slab nr b in
      let b := print_if (mt =? MIGRATE_MOVABLE P)
                        (reclaimable_slab_page_in_movable here pg) b in
      print_if (mt =? MIGRATE_UNMOVABLE P)
               (reclaimable_slab_page_in_unmovable here pg) b
  | ZSMALLOC => add_lru nr b
  | KMEM => add_kmem nr (set_nonmovable b)
  | RESERVED => add_reserved nr b
  | UNREF => add_buddy nr b
  | OTHER =>
      let b := set_nonmovable b in
      let b := add_other nr b in
      print_if (mt =? MIGRATE_RECLAIMABLE P) (other_page_in_reclaimable here pg) b
  | BUDDY => b
  end.

(** Lines 158-227: one pass through the body of the inner [while].  The
    order of a free page is shifted as it is read (line 162, with no test
    of its value), so the shift is the one place where the size of a
    Python integer is not bounded by the script. *)
Definition block_body (pfn mt : Z) (b : block) : outcome block :=
  let page := pfn_to_page P (pfn + i b) in
  let t := page_type page page in
  if bool_decide (t = BUDDY) then
    if (private page <=? int_bits P)%N then
      let nr := Z.shiftl 1 (Z.of_N (private page)) in
      Go (add_i nr (add_buddy nr b))
    else Halt MemoryError (printed_in_block b)
  else
    let nr := Z.pos (compound_nr page) in
    if nr >? 512 then
      Halt (SystemExit 1)
           (printed_in_block b
              ++ [bogus_compound_size (pfn + i b) nr; print_page page])
    else
      Go (add_i nr (account pfn mt page t nr b)).

(** Line 157: [while i < size]. *)
Fixpoint block_loop (fuel : nat) (pfn mt size : Z) (b : block)
    : outcome block :=
  if i b <? size then
    match fuel with
    | O => Starved
    | S fuel => b ← block_body pfn mt b; block_loop fuel pfn mt size b
    end
  else Go b.

(** [d[k] += v] on a dictionary. *)
Definition dict_add (k : string) (v : Z) (d : gmap string Z) : gmap string Z :=
  <[ k := default 0 (d !! k) + v ]> d.

Definition truthy (n : Z) : bool := negb (n =? 0).

(** Lines 229-256: the cross-tabulation after a block. *)
Definition tabulate (mt : Z) (b : block) (s : state) : state :=
  let in_unmovable := mt =? MIGRATE_UNMOVABLE P in
  let in_reclaimable := negb in_unmovable && (mt =? MIGRATE_RECLAIMABLE P) in
  let in_movable := negb in_unmovable && negb in_reclaimable
                    && (mt =? MIGRATE_MOVABLE P) in
  {| pfn := pfn s + Z.shiftl 1 pageblock_order;
     pb := pb s + 1;
     types := match types s !! mt with
              | Some n => <[ mt := n + 1 ]> (types s)
              | None => <[ mt := 1 ]> (types s)
              end;
     slablru_in_unmovable :=
       if in_unmovable
       then dict_add "lru" (lru b) (dict_add "slab" (slab b) (slablru_in_unmovable s))
       else slablru_in_unmovable s;
     nonslab_in_reclaimable :=
       if in_reclaimable
       then dict_add "other" (other b)
              (dict_add "kmem" (kmem b)
                 (dict_add "lru" (lru b) (nonslab_in_reclaimable s)))
       else nonslab_in_reclaimable s;
     nonlru_in_movable :=
       if in_movable
       then dict_add "other" (other b)
              (dict_add "kmem" (kmem b)
                 (dict_add "slab" (slab b) (nonlru_in_movable s)))
       else nonlru_in_movable s;
     unmovable_with_slablru :=
       if in_unmovable && (truthy (slab b) || truthy (lru b))
       then unmovable_with_slablru s + 1 else unmovable_with_slablru s;
     movable_with_nonlru :=
       if in_movable && (truthy (slab b) || truthy (kmem b) || truthy (other b))
       then movable_with_nonlru s + 1 else movable_with_nonlru s;
     reclaimable_with_nonslab :=
       if in_reclaimable && (truthy (lru b) || truthy (kmem b) || truthy (other b))
       then reclaimable_with_nonslab s + 1 else reclaimable_with_nonslab s;
     blocks_with_nonmovable :=
       if block_has_nonmovable b
       then blocks_with_nonmovable s + 1 else blocks_with_nonmovable s;
     printed := printed_in_block b |}.

Definition skip_section (s : state) : state :=
  {| pfn := pfn s + PAGES_PER_SECTION; pb := pb s; types := types s;
     slablru_in_unmovable := slablru_in_unmovable s;
     nonslab_in_reclaimable := nonslab_in_reclaimable s;
     nonlru_in_movable := nonlru_in_movable s;
     unmovable_with_slablru := unmovable_with_slablru s;
     movable_with_nonlru := movable_with_nonlru s;
     reclaimable_with_nonslab := reclaimable_with_nonslab s;
     blocks_with_nonmovable := blocks_with_nonmovable s;
     printed := printed s ++ [skipping_invalid_section (pfn s)] |}.

Definition fresh_block (s : state) : block :=
  {| buddy := 0; lru := 0; reserved := 0; slab := 0; kmem := 0; other := 0;
     block_has_nonmovable := false; i := 0; printed_in_block := printed s |}.

(** Lines 137-256: one pass through the body of the outer [while].  A null
    root makes [__pfn_to_section] return Python's [None], whose attributes
    cannot be read.  The inner loop moves [i] forward by at least one frame
    at every pass, so [size] passes are enough. *)
Definition scan_body (s : state) : outcome state :=
  match __pfn_to_section (pfn s) with
  | None => Halt AttributeError (printed s)
  | Some section =>
      if negb (valid_section section) then Go (skip_section s)
      else
        match get_pageblock_migratetype (pfn s) with
        | None => Halt AttributeError (printed s)
        | Some mt =>
            let size := Z.shiftl 1 pageblock_order in
            b ← block_loop (Z.to_nat size) (pfn s) mt size (fresh_block s);
            Go (tabulate mt b s)
        end
  end.

(** Line 136: [while pfn <= 0x400]. *)
Fixpoint scan_loop (fuel : nat) (s : state) : outcome state :=
  if pfn s <=? 0x400 then
    match fuel with
    | O => Starved
    | S fuel => s ← scan_body s; scan_loop fuel s
    end
  else Go s.

(** Lines 121-134. *)
Definition initial : state :=
  {| pfn := min_low_pfn P; pb := 0; types := ∅;
     slablru_in_unmovable := {[ "slab" := 0; "lru" := 0 ]};
     nonslab_in_reclaimable := {[ "lru" := 0; "kmem" := 0; "other" := 0 ]};
     nonlru_in_movable := {[ "slab" := 0; "kmem" := 0; "other" := 0 ]};
     unmovable_with_slablru := 0; movable_with_nonlru := 0;
     reclaimable_with_nonslab := 0; blocks_with_nonmovable := 0;
     printed := [print_pfn (min_low_pfn P)] |}.

(** Every pass of the outer loop moves [pfn] forward by a block at least,
    so the distance to [0x400], in frames, bounds the passes. *)
Definition scan : outcome state :=
  scan_loop (Z.to_nat (0x400 + 1 - min_low_pfn P)) initial.

(** *** Vocabulary of the properties *)

(** The frame [x] holds a page that is not free and whose compound frame
    count is more than a block. *)
Definition bogus_at (x : Z) : Prop :=
  let pg := pfn_to_page P x in
  page_type pg pg <> BUDDY ∧ Z.pos (compound_nr pg) > 512.

(** Lines 169-170: the two lines printed before [sys.exit(1)]. *)
Definition bogus_diagnostic (x : Z) : list line :=
  let pg := pfn_to_page P x in
  [bogus_compound_size x (Z.pos (compound_nr pg)); print_page pg].

(** The frame [x] holds a free page whose order is beyond what the
    interpreter can shift by. *)
Definition overlong_order_at (x : Z) : Prop :=
  let pg := pfn_to_page P x in
  page_type pg pg = BUDDY ∧ (int_bits P < private pg)%N.

(** The states in which the walk comes to the test of the outer loop. *)
Inductive entered : state -> Prop :=
| entered_first : entered initial
| entered_next (s s' : state) :
    entered s -> pfn s <= 0x400 -> scan_body s = Go s' -> entered s'.

(** [stands_at pfn mt b0 b]: the walk of the block at [pfn], tagged [mt]
    and begun with [b0], comes to the test of the inner loop with [b]. *)
Inductive stands_at (pfn mt : Z) (b0 : block) : block -> Prop :=
| stands_first : stands_at pfn mt b0 b0
| stands_next (b b' : block) :
    stands_at pfn mt b0 b -> i b < Z.shiftl 1 pageblock_order ->
    block_body pfn mt b = Go b' -> stands_at pfn mt b0 b'.



End WithProg.

End Fine.

(** ** Snapshots used as concrete inputs *)

Module Snapshots.

(** A section that is present and online, with every subsection mapped. *)
Definition online_section : Coarse.mem_section :=
  {| Coarse.ms_address := 4096;
     Coarse.section_mem_map := 6;
     Coarse.subsection_map0 := 2 ^ 64 - 1;
     Coarse.pageblock_flags := fun _ => 0 |}.

(** Pages by their flag word; [page_type] is all ones unless the page is
    free, and bit numbers are those of [kernel] below. *)
Definition page_with (flags : Z) : Coarse.page :=
  {| Coarse.flags := flags; Coarse.page_type := 0xFFFFFFFF;
     Coarse.compound_head := 0; Coarse.private := 0%N;
     Coarse.mapping := 0; Coarse.compound_order_field := 0%N |}.

Definition lru_page : Coarse.page := page_with (Z.shiftl 1 4).
Definition reserved_page : Coarse.page := page_with (Z.shiftl 1 12).
Definition reserved_lru_page : Coarse.page :=
  page_with (Z.lor (Z.shiftl 1 12) (Z.shiftl 1 4)).
Definition unmovable_page : Coarse.page := page_with 0.
Definition head_page : Coarse.page := page_with (Z.shiftl 1 16).

(** The page structure after a compound head: it holds the order. *)
Definition first_tail (order : N) : Coarse.page :=
  {| Coarse.flags := 0; Coarse.page_type := 0xFFFFFFFF;
     Coarse.compound_head := 1; Coarse.private := 0%N;
     Coarse.mapping := 0; Coarse.compound_order_field := order |}.

Definition kernel (max_pfn : Z) (pages : Z -> Coarse.page) : Coarse.prog :=
  {| Coarse.max_pfn := max_pfn;
     Coarse.sizeof_mem_section := 16;
     Coarse.NR_PAGEBLOCK_BITS := 4;
     Coarse.PG_reserved := 12;
     Coarse.PG_head := 16;
     Coarse.PG_lru := 4;
     Coarse.PG_slab := 9;
     Coarse.MIGRATE_UNMOVABLE := 0;
     Coarse.mem_section_at := fun _ _ => online_section;
     Coarse.pfn_to_page := pages |}.

(** Four blocks of LRU pages, except that frame 1 is read as the head of an
    order-10 compound page that is not on the LRU. *)
Definition torn_head : Coarse.prog :=
  kernel 2048 (fun pfn => if pfn =? 1 then head_page
                          else if pfn =? 2 then first_tail 10
                          else lru_page).

(** A hundred frames, all reserved: one block, cut short by [max_pfn]. *)
Definition short_reserved : Coarse.prog := kernel 100 (fun _ => reserved_page).

(** A hundred frames, each both reserved and on the LRU. *)
Definition short_reserved_lru : Coarse.prog := kernel 100 (fun _ => reserved_lru_page).


(** A free page of the given order. *)
Definition buddy_page (order : N) : Coarse.page :=
  {| Coarse.flags := 0; Coarse.page_type := 0xFFFFFF7F;
     Coarse.compound_head := 0; Coarse.private := order;
     Coarse.mapping := 0; Coarse.compound_order_field := 0%N |}.

(** Four blocks: one free page of order 9; LRU pages; one unmovable page
    followed by 511 LRU pages; reserved pages. *)
Definition four_blocks : Coarse.prog :=
  kernel 2048 (fun pfn => if pfn <? 512 then buddy_page 9
                          else if pfn <? 1024 then lru_page
                          else if pfn =? 1024 then unmovable_page
                          else if pfn <? 1536 then lru_page
                          else reserved_page).


(** The fine scan's view: every section root present and valid, every page
    an LRU page of one frame, in blocks tagged movable. *)
Definition fine_lru_page : Fine.page :=
  {| Fine.PageReserved := false; Fine.PageSlab := false; Fine.PageLRU := true;
     Fine.PageActive := false; Fine.PageUptodate := true;
     Fine.page_type_field := 0xFFFFFFFF; Fine.slab_cache_allocflags := 0;
     Fine.mapping := 0; Fine.memcg_data := 0; Fine._refcount := 1;
     Fine.private := 0%N; Fine.compound_nr := 1%positive |}.

Definition fine_reserved_lru_page : Fine.page :=
  {| Fine.PageReserved := true; Fine.PageSlab := false; Fine.PageLRU := true;
     Fine.PageActive := false; Fine.PageUptodate := false;
     Fine.page_type_field := 0xFFFFFFFF; Fine.slab_cache_allocflags := 0;
     Fine.mapping := 0; Fine.memcg_data := 0; Fine._refcount := 1;
     Fine.private := 0%N; Fine.compound_nr := 1%positive |}.

Definition fine_section : Fine.mem_section :=
  {| Fine.section_mem_map := 2; Fine.pageblock_flags := fun _ => 1 |}.

Definition fine_kernel (max_pfn : Z) (pages : Z -> Fine.page) : Fine.prog :=
  {| Fine.min_low_pfn := 0;
     Fine.max_pfn := max_pfn;
     Fine.sizeof_mem_section := 16;
     Fine.NR_PAGEBLOCK_BITS := 4;
     Fine.MIGRATE_UNMOVABLE := 0;
     Fine.MIGRATE_MOVABLE := 1;
     Fine.MIGRATE_RECLAIMABLE := 2;
     Fine.zsmalloc_mops := 0xffffffff82000000;
     Fine.mem_section_root := fun _ => Some (fun _ => fine_section);
     Fine.pfn_to_page := pages;
     Fine.int_bits := (2 ^ 40)%N |}.

End Snapshots.

(** ** More snapshots *)

Module Cases.
Import Snapshots.

(** The head of a compound page that is on the LRU. *)
Definition lru_head_page : Coarse.page :=
  page_with (Z.lor (Z.shiftl 1 16) (Z.shiftl 1 4)).

(** LRU pages, with an order-2 compound page on the LRU in frames 0 to 3. *)
Definition small_folio : Coarse.prog :=
  kernel 1024 (fun pfn => if pfn =? 0 then lru_head_page
                          else if pfn =? 1 then first_tail 2
                          else lru_page).

(** One free page of order 10 in frame 0, LRU pages after it. *)
Definition free_4mb : Coarse.prog :=
  kernel 2048 (fun pfn => if pfn <? 1024 then buddy_page 10 else lru_page).

(** A section table whose sections are all null. *)
Definition nothing_online : Coarse.prog :=
  {| Coarse.max_pfn := 4096;
     Coarse.sizeof_mem_section := 16;
     Coarse.NR_PAGEBLOCK_BITS := 4;
     Coarse.PG_reserved := 12;
     Coarse.PG_head := 16;
     Coarse.PG_lru := 4;
     Coarse.PG_slab := 9;
     Coarse.MIGRATE_UNMOVABLE := 0;
     Coarse.mem_section_at := fun _ _ =>
       {| Coarse.ms_address := 0; Coarse.section_mem_map := 0;
          Coarse.subsection_map0 := 0; Coarse.pageblock_flags := fun _ => 0 |};
     Coarse.pfn_to_page := fun _ => lru_page |}.

(** A page of no kind the fine classifier knows, with a reference. *)
Definition fine_other_page : Fine.page :=
  {| Fine.PageReserved := false; Fine.PageSlab := false; Fine.PageLRU := false;
     Fine.PageActive := false; Fine.PageUptodate := false;
     Fine.page_type_field := 0xFFFFFFFF; Fine.slab_cache_allocflags := 0;
     Fine.mapping := 0; Fine.memcg_data := 0; Fine._refcount := 1;
     Fine.private := 0%N; Fine.compound_nr := 1%positive |}.

(** LRU pages with one page of no known kind in frame 3. *)
Definition fine_mixed : Fine.prog :=
  fine_kernel 4096 (fun pfn => if pfn =? 3 then fine_other_page
                               else fine_lru_page).







(** The head of a compound page with the reserved and the LRU flag. *)
Definition reserved_lru_head_page : Coarse.page :=
  page_with (Z.lor (Z.shiftl 1 16) (Z.lor (Z.shiftl 1 12) (Z.shiftl 1 4))).

(** One block: such a head of order 9 in frame 0. *)
Definition reserved_lru_head : Coarse.prog :=
  kernel 512 (fun pfn => if pfn =? 0 then reserved_lru_head_page
                         else if pfn =? 1 then first_tail 9
                         else lru_page).

(** A page with the page type of a free page, read while its [private]
    word holds something else than an order. *)
Definition fine_garbage_free_page : Fine.page :=
  {| Fine.PageReserved := false; Fine.PageSlab := false; Fine.PageLRU := false;
     Fine.PageActive := false; Fine.PageUptodate := false;
     Fine.page_type_field := 0xFFFFFF7F; Fine.slab_cache_allocflags := 0;
     Fine.mapping := 0; Fine.memcg_data := 0; Fine._refcount := 0;
     Fine.private := (2 ^ 63)%N; Fine.compound_nr := 1%positive |}.

(** LRU pages of one frame, with such a page in frame 0. *)
Definition fine_garbage_order : Fine.prog :=
  fine_kernel 4096 (fun pfn => if pfn =? 0 then fine_garbage_free_page
                               else fine_lru_page).

(** The same frame as the coarse script reads it. *)
Definition coarse_garbage_order : Coarse.prog :=
  kernel 4096 (fun pfn => if pfn =? 0 then buddy_page (2 ^ 63) else lru_page).

(** LRU pages of one frame under a section table whose roots are null. *)
Definition fine_null_root : Fine.prog :=
  {| Fine.min_low_pfn := 0;
     Fine.max_pfn := 4096;
     Fine.sizeof_mem_section := 16;
     Fine.NR_PAGEBLOCK_BITS := 4;
     Fine.MIGRATE_UNMOVABLE := 0;
     Fine.MIGRATE_MOVABLE := 1;
     Fine.MIGRATE_RECLAIMABLE := 2;
     Fine.zsmalloc_mops := 0xffffffff82000000;
     Fine.mem_section_root := fun _ => None;
     Fine.pfn_to_page := fun _ => fine_lru_page;
     Fine.int_bits := (2 ^ 40)%N |}.

(** An LRU page whose compound frame count is two blocks. *)
Definition fine_bogus_page : Fine.page :=
  {| Fine.PageReserved := false; Fine.PageSlab := false; Fine.PageLRU := true;
     Fine.PageActive := false; Fine.PageUptodate := true;
     Fine.page_type_field := 0xFFFFFFFF; Fine.slab_cache_allocflags := 0;
     Fine.mapping := 0; Fine.memcg_data := 0; Fine._refcount := 1;
     Fine.private := 0%N; Fine.compound_nr := 1024%positive |}.

(** LRU pages of one frame, with such a page in frame 3. *)
Definition fine_bogus : Fine.prog :=
  fine_kernel 4096 (fun pfn => if pfn =? 3 then fine_bogus_page
                               else fine_lru_page).

End Cases.

(** ** Vocabulary of the further properties *)

Module Vocabulary.
Import Coarse.

(** The two sample arrays have grown together. *)
Definition paired_samples (s : state) : Prop :=
  length (unmovable_pages_in_unmovable_blocks s)
  = length (movable_pages_in_unmovable_blocks s).

(** An ordinary reserved page: not free, not compound, with the reserved
    flag. *)
Definition ordinary_reserved (P : prog) (pg : page) : Prop :=
  PageBuddy pg = false ∧ PageCompound P pg = false ∧ PageReserved P pg = true.

(** The state a block leaves when it changes no list and no counter:
    the cursor at [pfn'] and the tallies as given. *)
Definition with_tallies (pfn' unmovable movable reserved : Z) (s : state) : state :=
  set_pfn pfn'
    (set_reserved_pages reserved
       (set_movable_pages movable (set_unmovable_pages unmovable s))).

(** Line 294-298: the free pages of one unmovable-bearing block. *)
Definition free_of (m u : Z) : Z := 512 - m - u.

(** A block's two samples fit in a block. *)
Definition fits_block (m u : Z) : Prop := m + u <= 512.

(** The frames a fine block has tallied, all six tallies together. *)
Definition accounted (b : Fine.block) : Z :=
  Fine.buddy b + Fine.lru b + Fine.reserved b + Fine.slab b + Fine.kmem b
  + Fine.other b.

(** [sum(d.values())] of a dictionary of counts. *)
Definition dict_total (d : gmap Z Z) : Z :=
  map_fold (fun _ v acc => v + acc) 0 d.

(** The nonmovable flag of a fine block says what its [kmem] and [other]
    tallies say. *)
Definition flag_agrees (b : Fine.block) : Prop :=
  0 <= Fine.kmem b ∧ 0 <= Fine.other b
  ∧ (Fine.block_has_nonmovable b = true <-> 0 < Fine.kmem b + Fine.other b).

(** What the counters of the fine walk keep between blocks. *)
Definition counters_within (P : Fine.prog) (s : Fine.state) : Prop :=
  0 <= Fine.pb s
  ∧ 0 <= Fine.blocks_with_nonmovable s <= Fine.pb s
  ∧ 0 <= Fine.unmovable_with_slablru s
  ∧ 0 <= Fine.movable_with_nonlru s
  ∧ 0 <= Fine.reclaimable_with_nonslab s
  ∧ Fine.unmovable_with_slablru s + Fine.movable_with_nonlru s
    + Fine.reclaimable_with_nonslab s <= Fine.pb s
  ∧ Fine.min_low_pfn P + 512 * Fine.pb s <= Fine.pfn s
  ∧ (Fine.pb s = 0 ∨ Fine.min_low_pfn P + 512 * Fine.pb s <= 1536)
  ∧ dict_total (Fine.types s) = Fine.pb s.

(** Every regular block and every order-10 free region has a PFN on
    record. *)
Definition regions_on_record (s : state) : Prop :=
  0 <= Z.of_nat (length (free_4mb_pfns s)) <= regular_blocks s
  ∧ regular_blocks s <= Z.of_nat (length (movable_2mb_pfns s)).

(** The assertions of the walk: lines 230, 243 and 254. *)
Definition walk_assertion (e : py_stop) : Prop :=
  e = AssertionError 230 ∨ e = AssertionError 243 ∨ e = AssertionError 254.

End Vocabulary.

(** * Properties *)

(** ** Buddy arithmetic *)

Section BuddyBits.
Import Coalesce.

Lemma pow2_testbit (k : N) (n : Z) :
  0 <= n -> Z.testbit (Z.shiftl 1 (Z.of_N k)) n = bool_decide (n = Z.of_N k).
Proof.
  intros Hn. rewrite Z.shiftl_1_l, Z.pow2_bits_eqb by lia.
  destruct (Z.eqb_spec (Z.of_N k) n); case_bool_decide; congruence || lia.
Qed.

Lemma buddy_of_clear (p : Z) (k : N) :
  Z.testbit p (Z.of_N k) = false ->
  buddy_of p k = p + Z.shiftl 1 (Z.of_N k).
Proof.
  intros Hb. unfold buddy_of. symmetry. apply Z.add_nocarry_lxor.
  apply Z.bits_inj'; intros n Hn.
  rewrite Z.land_spec, Z.bits_0, pow2_testbit by lia.
  case_bool_decide; subst; rewrite ?Hb, ?andb_false_r; reflexivity.
Qed.

Lemma buddy_of_set (p : Z) (k : N) :
  Z.testbit p (Z.of_N k) = true ->
  buddy_of p k = p - Z.shiftl 1 (Z.of_N k).
Proof.
  intros Hb. unfold buddy_of.
  rewrite Z.sub_nocarry_ldiff.
  - apply Z.bits_inj'; intros n Hn.
    rewrite Z.lxor_spec, Z.ldiff_spec, pow2_testbit by lia.
    case_bool_decide; subst; rewrite ?Hb; simpl;
      [reflexivity | rewrite xorb_false_r, andb_true_r; reflexivity].
  - apply Z.bits_inj'; intros n Hn.
    rewrite Z.ldiff_spec, Z.bits_0, pow2_testbit by lia.
    case_bool_decide; subst; rewrite ?Hb; reflexivity.
Qed.

Lemma pow2_pos (k : N) : 0 < Z.shiftl 1 (Z.of_N k).
Proof. rewrite Z.shiftl_1_l. apply Z.pow_pos_nonneg; lia. Qed.

Lemma buddy_gt_iff (p : Z) (k : N) :
  buddy_of p k > p <-> Z.testbit p (Z.of_N k) = false.
Proof.
  pose proof (pow2_pos k).
  destruct (Z.testbit p (Z.of_N k)) eqn:Hb.
  - rewrite (buddy_of_set _ _ Hb). split; [lia | discriminate].
  - rewrite (buddy_of_clear _ _ Hb). split; [reflexivity | lia].
Qed.

Lemma buddy_land (p : Z) (k : N) :
  buddy_of p k > p -> Z.land (buddy_of p k) p = p.
Proof.
  intros Hgt%buddy_gt_iff. unfold buddy_of.
  apply Z.bits_inj'; intros n Hn.
  rewrite Z.land_spec, Z.lxor_spec, pow2_testbit by lia.
  case_bool_decide; subst; rewrite ?Hgt; simpl;
    [reflexivity | rewrite xorb_false_r, andb_diag; reflexivity].
Qed.

Lemma buddy_min (p : Z) (k : N) :
  buddy_of p k > p -> Z.land (buddy_of p k) p = Z.min p (buddy_of p k).
Proof. intros H. rewrite (buddy_land _ _ H). lia. Qed.

Lemma build_step_spec (S : gset Z) (k : N) (p : Z) (acc : gset Z) :
  build_step S k p acc =
    if bool_decide (buddy_of p k > p ∧ buddy_of p k ∈ S)
    then {[ p ]} ∪ acc else acc.
Proof.
  unfold build_step. fold (buddy_of p k).
  case_bool_decide as H1; simpl.
  - case_bool_decide as H2; simpl.
    + rewrite bool_decide_true by tauto. rewrite (buddy_land _ _ H1). reflexivity.
    + rewrite bool_decide_false by tauto. reflexivity.
  - rewrite bool_decide_false by tauto. reflexivity.
Qed.

Lemma elem_of_build_list (S : gset Z) (k : N) (x : Z) :
  x ∈ build_list S k <-> coalescible S k x.
Proof.
  unfold build_list, coalescible.
  generalize (build_step_spec S k).
  generalize (build_step S k). intros f Hf.
  cut (forall X : gset Z, X ⊆ S ->
        forall x, x ∈ set_fold f (∅ : gset Z) X <->
                  x ∈ X ∧ buddy_of x k ∈ S ∧ buddy_of x k > x).
  { intros Hc. split.
    - intros H. apply Hc in H; [|reflexivity]. tauto.
    - intros (H1 & H2 & H3). apply Hc; [reflexivity | tauto]. }
  intros X.
  apply (set_fold_ind_L
    (fun (r : gset Z) (X : gset Z) => X ⊆ S ->
       forall x, x ∈ r <-> x ∈ X ∧ buddy_of x k ∈ S ∧ buddy_of x k > x)).
  - intros _ y. rewrite !elem_of_empty. tauto.
  - intros y Y r Hy IH HS z. rewrite Hf.
    assert (HY : Y ⊆ S) by (intros w Hw; apply HS, elem_of_union; right; exact Hw). specialize (IH HY).
    case_bool_decide as Hd.
    + rewrite elem_of_union, elem_of_singleton, IH, elem_of_union, elem_of_singleton.
      split; [intros [Hz|?]; subst; tauto | intros ([Hz|?] & ? & ?); subst; tauto].
    + rewrite IH, elem_of_union, elem_of_singleton.
      split; [tauto | intros ([Hz|?] & ? & ?); subst; tauto].
Qed.

End BuddyBits.

(** ** C1, C3: the coalescing step *)

Section CoalesceFacts.
Import Coalesce.

Lemma build_list_as_image (S : gset Z) (k : N) :
  build_list S k =
    set_map (fun p => Z.land (buddy_of p k) p)
            (filter (fun p => buddy_of p k ∈ S ∧ buddy_of p k > p) S).
Proof.
  apply set_eq. intros x. rewrite elem_of_build_list, elem_of_map.
  unfold coalescible. split.
  - intros (H1 & H2 & H3). exists x. rewrite (buddy_land _ _ H3).
    split; [reflexivity|]. apply elem_of_filter. tauto.
  - intros (p & Hx & Hp). apply elem_of_filter in Hp.
    destruct Hp as ((H2 & H3) & H1).
    rewrite (buddy_land _ _ H3) in Hx. subst x. tauto.
Qed.

Lemma build_list_subseteq (S : gset Z) (k : N) : build_list S k ⊆ S.
Proof. intros x Hx. apply elem_of_build_list in Hx. apply Hx. Qed.

Lemma size_shift_image (d : Z) (X : gset Z) :
  size (set_map (C:=gset Z) (D:=gset Z) (fun p => p + d) X) = size X.
Proof.
  induction X as [|x X Hx IH] using set_ind_L.
  - rewrite set_map_empty. reflexivity.
  - rewrite set_map_union_L, set_map_singleton_L.
    rewrite !size_union, !size_singleton, IH; [reflexivity| |].
    + apply disjoint_singleton_l. exact Hx.
    + apply disjoint_singleton_l. rewrite elem_of_map.
      intros (y & Hy & HyX). assert (x = y) by lia. subst y. contradiction.
Qed.

Lemma build_list_twice (S : gset Z) (k : N) :
  (2 * size (build_list S k) <= size S)%nat.
Proof.
  set (B := build_list S k).
  set (B' := set_map (C:=gset Z) (D:=gset Z)
               (fun p => p + Z.shiftl 1 (Z.of_N k)) B).
  assert (Hdisj : B ## B').
  { intros x Hx Hx'. apply elem_of_map in Hx' as (y & Hxy & Hy).
    apply elem_of_build_list in Hx as (_ & _ & Hx).
    apply elem_of_build_list in Hy as (_ & _ & Hy).
    apply buddy_gt_iff in Hx, Hy. subst x.
    rewrite <- (buddy_of_clear _ _ Hy) in Hx.
    unfold buddy_of in Hx.
    rewrite Z.lxor_spec, pow2_testbit, Hy, bool_decide_true in Hx by lia.
    discriminate. }
  assert (Hsub : B ∪ B' ⊆ S).
  { apply union_subseteq. split; [apply build_list_subseteq|].
    intros x Hx. apply elem_of_map in Hx as (y & -> & Hy).
    apply elem_of_build_list in Hy as (_ & Hb & Hgt).
    apply buddy_gt_iff in Hgt. rewrite (buddy_of_clear _ _ Hgt) in Hb.
    exact Hb. }
  apply subseteq_size in Hsub.
  rewrite (size_union _ _ Hdisj) in Hsub.
  unfold B' in Hsub. rewrite size_shift_image in Hsub. lia.
Qed.

(** C1.  [build_list S k] holds exactly the PFNs [p] of [S] whose buddy
    [p xor (1 << k)] is in [S] and greater than [p]; what the code stores
    for such a pair is [buddy land p], which is [p] itself and the smaller
    of the two; so a PFN in the result has both [p] and [p + (1 << k)] in
    [S]. *)
Theorem build_list_exact (S : gset Z) (k : N) (p : Z) :
  build_list S k =
    set_map (fun q => Z.land (buddy_of q k) q)
            (filter (fun q => buddy_of q k ∈ S ∧ buddy_of q k > q) S)
  ∧ (p ∈ build_list S k <->
       p ∈ S ∧ Z.lxor p (Z.shiftl 1 (Z.of_N k)) ∈ S
       ∧ Z.lxor p (Z.shiftl 1 (Z.of_N k)) > p)
  ∧ (buddy_of p k > p ->
       Z.land (buddy_of p k) p = p
       ∧ Z.land (buddy_of p k) p = Z.min p (buddy_of p k))
  ∧ (p ∈ build_list S k ->
       p ∈ S ∧ p + Z.shiftl 1 (Z.of_N k) ∈ S
       ∧ buddy_of p k = p + Z.shiftl 1 (Z.of_N k)
       ∧ p = Z.min p (buddy_of p k)).
Proof.
  split; [apply build_list_as_image|].
  split; [apply elem_of_build_list|].
  split.
  - intros H. split; [apply buddy_land | apply buddy_min]; exact H.
  - intros H. apply elem_of_build_list in H. destruct H as (H1 & H2 & H3).
    pose proof (proj1 (buddy_gt_iff _ _) H3) as Hbit.
    rewrite (buddy_of_clear _ _ Hbit) in *.
    repeat split; [exact H1 | exact H2 | lia].
Qed.

(** C3.  One coalescing step at most halves the number of regions. *)
Theorem build_list_halves (S : gset Z) (k : N) :
  (size (build_list S k) <= size S / 2)%nat.
Proof.
  pose proof (build_list_twice S k) as H.
  apply Nat.div_le_lower_bound; lia.
Qed.

End CoalesceFacts.

(** ** The coarse walk always moves forward *)

Section CoarseProgress.
Import Coarse.
Variable P : prog.

Lemma shift1_ge_1 (n : Z) : 0 <= n -> 1 <= Z.shiftl 1 n.
Proof. intros Hn. rewrite Z.shiftl_1_l. pose proof (Z.pow_pos_nonneg 2 n). lia. Qed.

Lemma align_ge (x a : Z) : 0 < a -> x <= align x a.
Proof.
  intros Ha. unfold align. pose proof (Z.mod_pos_bound x a Ha).
  destruct (x mod a =? 0); simpl; lia.
Qed.

Lemma align_multiple (x a : Z) : 0 < a -> align x a mod a = 0.
Proof.
  intros Ha. unfold align. destruct (Z.eqb_spec (x mod a) 0) as [E|E]; simpl.
  - exact E.
  - replace (x + (a - x mod a)) with (x - x mod a + 1 * a) by lia.
    rewrite Z.mod_add by lia.
    rewrite (Z.div_mod x a) at 1 by lia.
    replace (a * (x / a) + x mod a - x mod a) with ((x / a) * a) by lia.
    apply Z.mod_mul. lia.
Qed.

Lemma align_lt (x a : Z) : 0 < a -> align x a < x + a.
Proof.
  intros Ha. unfold align. pose proof (Z.mod_pos_bound x a Ha).
  destruct (Z.eqb_spec (x mod a) 0); simpl; lia.
Qed.

Lemma buddy_branch_pfn bs be pg s s' :
  buddy_branch bs be pg s = Ret s' -> pfn s + 1 <= pfn s'.
Proof.
  unfold buddy_branch, py_assert, mbind, run_bind.
  pose proof (shift1_ge_1 (Z.of_N (private pg)) ltac:(lia)) as Hs.
  repeat match goal with
         | |- context [if ?c then _ else _] => destruct c; simpl
         end;
    intros H; inversion H; subst; simpl; lia.
Qed.

Lemma compound_order_nonneg n pg : 0 <= compound_order P n pg.
Proof. unfold compound_order. destruct (negb _); lia. Qed.

Lemma compound_branch_pfn bs be pg s s' :
  compound_branch P bs be pg s = Ret s' -> pfn s + 1 <= pfn s'.
Proof.
  unfold compound_branch, py_assert, mbind, run_bind.
  pose proof (compound_order_nonneg (pfn s) pg) as Ho.
  pose proof (shift1_ge_1 _ Ho) as Hs.
  set (order := compound_order P (pfn s) pg) in *.
  repeat match goal with
         | |- context [if ?c then _ else _] => destruct c; simpl
         end;
    intros H; inversion H; subst; simpl; lia.
Qed.

Lemma block_body_pfn bs be s s' :
  block_body P bs be s = Ret s' -> pfn s + 1 <= pfn s'.
Proof.
  unfold block_body.
  destruct (PageBuddy _); [apply buddy_branch_pfn|].
  destruct (PageCompound _ _); [apply compound_branch_pfn|].
  destruct (PageReserved _ _); [intros H; inversion H; simpl; lia|].
  destruct (PageLRU _ _ || PageMovable _); intros H; inversion H; simpl; lia.
Qed.

Lemma block_body_returns bs be s : block_body P bs be s <> OutOfFuel.
Proof.
  unfold block_body, buddy_branch, compound_branch, py_assert, mbind, run_bind.
  repeat match goal with
         | |- context [if ?c then _ else _] => destruct c; simpl
         end; discriminate.
Qed.

Lemma block_loop_fuel fuel bs be s :
  be - pfn s <= Z.of_nat fuel -> block_loop P fuel bs be s <> OutOfFuel.
Proof.
  revert s. induction fuel as [|fuel IH]; intros s Hf; simpl.
  - destruct (Z.ltb_spec (pfn s) be) as [Hlt|Hge]; [lia | discriminate].
  - destruct (Z.ltb_spec (pfn s) be) as [Hlt|Hge]; [|discriminate].
    destruct (block_body P bs be s) as [s'| |] eqn:Hb; simpl.
    + apply block_body_pfn in Hb. apply IH. lia.
    + discriminate.
    + exfalso. exact (block_body_returns _ _ _ Hb).
Qed.

Lemma block_loop_pfn fuel bs be s s' :
  block_loop P fuel bs be s = Ret s' -> be <= pfn s' ∧ pfn s <= pfn s'.
Proof.
  revert s. induction fuel as [|fuel IH]; intros s; simpl.
  - destruct (Z.ltb_spec (pfn s) be) as [Hlt|Hge]; [discriminate|].
    intros E; inversion E; subst. lia.
  - destruct (Z.ltb_spec (pfn s) be) as [Hlt|Hge].
    + destruct (block_body P bs be s) as [s1| |] eqn:Hb; simpl; try discriminate.
      intros E. apply IH in E. apply block_body_pfn in Hb. lia.
    + intros E; inversion E; subst. lia.
Qed.

Lemma aggregate_pfn bs s : pfn (aggregate bs s) = pfn s.
Proof.
  unfold aggregate.
  destruct (reserved_pages s =? 512); [reflexivity|].
  destruct (unmovable_pages s =? 0); reflexivity.
Qed.

Lemma block_end_gt (x : Z) :
  x < max_pfn P -> x + 1 <= Z.min (align (x + 1) pageblock_nr_pages) (max_pfn P).
Proof.
  intros Hx. pose proof (align_ge (x + 1) pageblock_nr_pages ltac:(reflexivity)).
  lia.
Qed.

Lemma scan_body_pfn b s s' :
  pfn s < max_pfn P -> scan_body P b s = Ret s' -> pfn s + 1 <= pfn s'.
Proof.
  intros Hlt. unfold scan_body.
  destruct (negb (pfn_online P (pfn s))).
  - intros E; inversion E; subst; simpl.
    apply (align_ge (pfn s + 1) MAX_ORDER_NR_PAGES). reflexivity.
  - cbn [pfn set_unmovable_pages set_movable_pages set_reserved_pages].
    pose proof (block_end_gt _ Hlt) as Hend.
    destruct (pfn s >? b).
    + intros E; inversion E; subst; simpl. exact Hend.
    + unfold mbind, run_bind.
      match goal with |- context [block_loop P ?f ?bs ?be ?st] =>
        destruct (block_loop P f bs be st) as [s1| |] eqn:Hb end;
        try discriminate.
      intros E; inversion E; subst. rewrite aggregate_pfn.
      apply block_loop_pfn in Hb. simpl in Hb. lia.
Qed.

Lemma scan_body_returns b s : scan_body P b s <> OutOfFuel.
Proof.
  unfold scan_body.
  destruct (negb (pfn_online P (pfn s))); [discriminate|].
  cbn [pfn set_unmovable_pages set_movable_pages set_reserved_pages].
  destruct (pfn s >? b); [discriminate|].
  unfold mbind, run_bind.
  match goal with |- context [block_loop P ?f ?bs ?be ?st] =>
    pose proof (block_loop_fuel f bs be st) as Hf;
    destruct (block_loop P f bs be st) as [s1| |] end;
    try discriminate.
  exfalso. apply Hf; [|reflexivity]. simpl. lia.
Qed.

Lemma scan_loop_fuel fuel b s :
  max_pfn P - pfn s <= Z.of_nat fuel -> scan_loop P fuel b s <> OutOfFuel.
Proof.
  revert s. induction fuel as [|fuel IH]; intros s Hf; simpl.
  - destruct (Z.ltb_spec (pfn s) (max_pfn P)) as [Hlt|Hge]; [lia | discriminate].
  - destruct (Z.ltb_spec (pfn s) (max_pfn P)) as [Hlt|Hge]; [|discriminate].
    destruct (scan_body P b s) as [s'| |] eqn:Hb; simpl.
    + apply scan_body_pfn in Hb; [|exact Hlt]. apply IH. lia.
    + discriminate.
    + exfalso. exact (scan_body_returns _ _ Hb).
Qed.

Lemma scan_loop_more_fuel fuel extra b s :
  scan_loop P fuel b s <> OutOfFuel ->
  scan_loop P (fuel + extra) b s = scan_loop P fuel b s.
Proof.
  revert s. induction fuel as [|fuel IH]; intros s; simpl.
  - destruct (pfn s <? max_pfn P) eqn:E; [congruence|].
    intros _. destruct extra; simpl; rewrite E; reflexivity.
  - destruct (pfn s <? max_pfn P); [|reflexivity].
    destruct (scan_body P b s) as [s'| |]; simpl; try reflexivity.
    apply IH.
Qed.

(** C10.  The coarse scan terminates: a pass of the inner loop and a pass
    of the outer loop each move [pfn] forward by at least one frame (the
    skip of an offline section and the block end included), so the walk
    ends, with a state or on a failed assertion, within [max_pfn] passes,
    and more passes would not change what it returns. *)
Theorem coarse_scan_terminates (boundary_pfn : Z) :
  (forall x, x + 1 <= align (x + 1) MAX_ORDER_NR_PAGES)
  ∧ (forall x, x < max_pfn P ->
       x + 1 <= Z.min (align (x + 1) pageblock_nr_pages) (max_pfn P))
  ∧ (forall bs be s s', block_body P bs be s = Ret s' -> pfn s + 1 <= pfn s')
  ∧ (forall s s', pfn s < max_pfn P ->
       scan_body P boundary_pfn s = Ret s' -> pfn s + 1 <= pfn s')
  ∧ (forall s, scan_body P boundary_pfn s <> OutOfFuel)
  ∧ ((exists s, scan P boundary_pfn = Ret s)
     ∨ (exists e, scan P boundary_pfn = Stop e))
  ∧ (forall extra,
       scan_loop P (Z.to_nat (max_pfn P) + extra) boundary_pfn initial
       = scan P boundary_pfn).
Proof.
  assert (Hfuel : scan P boundary_pfn <> OutOfFuel).
  { apply scan_loop_fuel. simpl. lia. }
  split; [intros x; apply align_ge; reflexivity|].
  split; [apply block_end_gt|].
  split; [apply block_body_pfn|].
  split; [apply scan_body_pfn|].
  split; [apply scan_body_returns|].
  split.
  - destruct (scan P boundary_pfn) as [s|e|]; [left|right|]; eauto.
    contradiction.
  - intros extra. apply scan_loop_more_fuel. exact Hfuel.
Qed.

End CoarseProgress.

(** ** C2, C5: what the tallies and the aggregator do on two snapshots *)

Section CoarseBlocks.
Import Coarse Snapshots.

Lemma aggregate_cases (bs : Z) (s : state) :
  (reserved_pages s = 512 ∧ aggregate bs s = s)
  ∨ (reserved_pages s <> 512 ∧ unmovable_pages s = 0
     ∧ aggregate bs s = append_movable_2mb bs (add_regular 1 s))
  ∨ (reserved_pages s <> 512 ∧ unmovable_pages s <> 0
     ∧ aggregate bs s =
         append_movable_sample (movable_pages s)
           (append_unmovable_sample (unmovable_pages s) s)).
Proof.
  unfold aggregate.
  destruct (Z.eqb_spec (reserved_pages s) 512); [left; tauto|].
  destruct (Z.eqb_spec (unmovable_pages s) 0); [right; left; tauto|].
  right; right; tauto.
Qed.

(** The tallies never grow faster than the cursor: a block's tallies can
    pass its size only when a run overruns the end of the block. *)
Lemma block_body_tallies (P : prog) bs be s s' :
  block_body P bs be s = Ret s' ->
  movable_pages s' + unmovable_pages s' + reserved_pages s' - pfn s'
    <= movable_pages s + unmovable_pages s + reserved_pages s - pfn s.
Proof.
  unfold block_body, buddy_branch, compound_branch, py_assert, mbind, run_bind.
  pose proof (shift1_ge_1 (Z.of_N (private (pfn_to_page P (pfn s)))) ltac:(lia)).
  pose proof (shift1_ge_1 _ (compound_order_nonneg P (pfn s) (pfn_to_page P (pfn s)))).
  set (order := compound_order P (pfn s) (pfn_to_page P (pfn s))) in *.
  repeat match goal with
         | |- context [if ?c then _ else _] => destruct c; simpl
         end;
    intros E; inversion E; subst; simpl; lia.
Qed.

Lemma block_loop_tallies (P : prog) fuel bs be s s' :
  block_loop P fuel bs be s = Ret s' ->
  movable_pages s' + unmovable_pages s' + reserved_pages s' - pfn s'
    <= movable_pages s + unmovable_pages s + reserved_pages s - pfn s.
Proof.
  revert s. induction fuel as [|fuel IH]; intros s; simpl.
  - destruct (pfn s <? be); [discriminate|]. intros E; inversion E; subst. lia.
  - destruct (pfn s <? be).
    + destruct (block_body P bs be s) as [s1| |] eqn:Hb; simpl; try discriminate.
      intros E. apply IH in E. apply block_body_tallies in Hb. lia.
    + intros E; inversion E; subst. lia.
Qed.

Lemma block_without_overrun (P : prog) fuel bs be s s' :
  movable_pages s = 0 -> unmovable_pages s = 0 -> reserved_pages s = 0 ->
  pfn s = bs -> be <= bs + 512 ->
  block_loop P fuel bs be s = Ret s' -> pfn s' = be ->
  movable_pages s' + unmovable_pages s' + reserved_pages s' <= 512.
Proof.
  intros Hm Hu Hr Hp Hbe Hl Hend. apply block_loop_tallies in Hl. lia.
Qed.

(** C2.  On [torn_head] the first block ends its classification loop with
    1 movable and 512 unmovable pages, 513 in all, more than the 512
    frames of a block; the report then stops on the assertion of line 299
    that the block's free pages are not negative. *)
Theorem torn_head_overruns_block :
  exists s,
    block_loop torn_head 512 0 512 initial = Ret s
    ∧ pfn s = 1025
    ∧ movable_pages s = 1 ∧ unmovable_pages s = 512 ∧ reserved_pages s = 0
    ∧ movable_pages s + unmovable_pages s + reserved_pages s = 513
    ∧ scan_body torn_head (2 ^ 64) initial = Ret (aggregate 0 s)
    ∧ unmovable_pages_in_unmovable_blocks (aggregate 0 s) = [512; 512]
    ∧ movable_pages_in_unmovable_blocks (aggregate 0 s) = [0; 1]
    ∧ run_script torn_head (2 ^ 64) = Stop (AssertionError 299).
Proof.
  eexists. split; [vm_compute; reflexivity|].
  vm_compute. repeat split; reflexivity.
Qed.

(** C5.  On [short_reserved] the only block holds 100 frames, every one of
    them reserved and none free or compound, and the scan still counts it
    as a regular block and records its start as an order-9 movable
    region. *)
Theorem short_reserved_block_counted :
  (forall pfn,
     let pg := pfn_to_page short_reserved pfn in
     PageReserved short_reserved pg = true
     ∧ PageBuddy pg = false ∧ PageCompound short_reserved pg = false)
  ∧ exists s,
      scan short_reserved (2 ^ 64) = Ret s
      ∧ pfn s = 100
      ∧ reserved_pages s = 100 ∧ movable_pages s = 0 ∧ unmovable_pages s = 0
      ∧ regular_blocks s = 1
      ∧ movable_2mb_pfns s = [0].
Proof.
  split; [intros pfn; vm_compute; repeat split; reflexivity|].
  eexists. split; [vm_compute; reflexivity|].
  vm_compute. repeat split; reflexivity.
Qed.

End CoarseBlocks.

(** ** C7: the boundary fast path *)

Section Boundary.
Import Coarse Snapshots.




Section Walk.
Variable P : prog.
Variable b : Z.
Hypothesis max_pfn_fits : max_pfn P <= 2 ^ 64.







End Walk.




End Boundary.

(** ** C9, C8: where the fine scan stops, and where it halts *)

Section FineAbort.
Import Fine Snapshots.
Variable P : prog.

Lemma block_body_bogus pfn mt b :
  bogus_at P (pfn + i b) ->
  block_body P pfn mt b
  = Halt (SystemExit 1) (printed_in_block b ++ bogus_diagnostic P (pfn + i b)).
Proof.
  intros (Hty & Hnr). unfold block_body, bogus_diagnostic.
  rewrite bool_decide_false by exact Hty.
  destruct (Z.gtb_spec (Z.pos (compound_nr (pfn_to_page P (pfn + i b)))) 512);
    [reflexivity | lia].
Qed.

Lemma block_body_overlong pfn mt b :
  overlong_order_at P (pfn + i b) ->
  block_body P pfn mt b = Halt MemoryError (printed_in_block b).
Proof.
  intros (Hty & Hbig). unfold block_body.
  rewrite bool_decide_true by exact Hty.
  destruct (N.leb_spec (private (pfn_to_page P (pfn + i b))) (int_bits P));
    [lia | reflexivity].
Qed.

Lemma block_body_halt pfn mt b e out :
  block_body P pfn mt b = Halt e out ->
  (e = SystemExit 1 ∧ bogus_at P (pfn + i b)
   ∧ out = printed_in_block b ++ bogus_diagnostic P (pfn + i b))
  ∨ (e = MemoryError ∧ overlong_order_at P (pfn + i b)
     ∧ out = printed_in_block b).
Proof.
  unfold block_body, bogus_at, bogus_diagnostic, overlong_order_at.
  case_bool_decide as Hty.
  - destruct (N.leb_spec (private (pfn_to_page P (pfn + i b))) (int_bits P));
      [discriminate|].
    intros E; inversion E; subst. right. repeat split; assumption.
  - destruct (Z.gtb_spec (Z.pos (compound_nr (pfn_to_page P (pfn + i b)))) 512);
      [|discriminate].
    intros E; inversion E; subst. left. repeat split; [exact Hty | lia].
Qed.

Lemma account_i pfn mt pg t nr b : i (account P pfn mt pg t nr b) = i b.
Proof.
  unfold account, print_if.
  destruct t;
    repeat match goal with
           | |- context [if ?c then _ else _] => destruct c
           end; reflexivity.
Qed.

Lemma block_body_i pfn mt b b' :
  block_body P pfn mt b = Go b' -> i b + 1 <= i b'.
Proof.
  unfold block_body.
  case_bool_decide as Hty.
  - destruct (_ <=? _)%N; [|discriminate].
    intros E; inversion E; subst; simpl.
    pose proof (shift1_ge_1 (Z.of_N (private (pfn_to_page P (pfn + i b))))
                  ltac:(lia)). lia.
  - destruct (_ >? 512); [discriminate|].
    intros E; inversion E; subst; simpl. rewrite account_i. lia.
Qed.

Lemma block_body_fed pfn mt b : block_body P pfn mt b <> Starved.
Proof.
  unfold block_body. case_bool_decide.
  - destruct (_ <=? _)%N; discriminate.
  - destruct (_ >? 512); discriminate.
Qed.

Lemma block_loop_fed fuel pfn mt size b :
  size - i b <= Z.of_nat fuel -> block_loop P fuel pfn mt size b <> Starved.
Proof.
  revert b. induction fuel as [|fuel IH]; intros b Hf; simpl.
  - destruct (Z.ltb_spec (i b) size); [lia | discriminate].
  - destruct (Z.ltb_spec (i b) size); [|discriminate].
    destruct (block_body P pfn mt b) as [b'| |] eqn:Hb; simpl.
    + apply block_body_i in Hb. apply IH. lia.
    + discriminate.
    + exfalso. exact (block_body_fed _ _ _ Hb).
Qed.

Lemma scan_body_pfn_fine s s' :
  scan_body P s = Go s' -> pfn s + 512 <= pfn s'.
Proof.
  unfold scan_body.
  destruct (__pfn_to_section P (pfn s)); [|discriminate].
  destruct (negb _).
  - intros E; inversion E; subst. simpl.
    change PAGES_PER_SECTION with 32768. lia.
  - destruct (get_pageblock_migratetype P (pfn s)); [|discriminate].
    unfold mbind, outcome_bind.
    match goal with |- context [block_loop P ?f ?a ?m ?z ?b] =>
      destruct (block_loop P f a m z b) as [b'|e' out'|] end;
      try discriminate.
    intros E; inversion E; subst. simpl.
    change (Z.shiftl 1 pageblock_order) with 512. lia.
Qed.

Lemma scan_body_fed s : scan_body P s <> Starved.
Proof.
  unfold scan_body.
  destruct (__pfn_to_section P (pfn s)); [|discriminate].
  destruct (negb _); [discriminate|].
  destruct (get_pageblock_migratetype P (pfn s)); [|discriminate].
  unfold mbind, outcome_bind.
  match goal with |- context [block_loop P ?f ?a ?m ?z ?b] =>
    pose proof (block_loop_fed f a m z b) as Hf;
    destruct (block_loop P f a m z b) as [b'|e' out'|] end;
    try discriminate.
  exfalso. apply Hf; [|reflexivity]. simpl. lia.
Qed.

Lemma scan_loop_fed fuel s :
  0x400 + 1 - pfn s <= Z.of_nat fuel -> scan_loop P fuel s <> Starved.
Proof.
  revert s. induction fuel as [|fuel IH]; intros s Hf; simpl.
  - destruct (Z.leb_spec (pfn s) 1024); [lia | discriminate].
  - destruct (Z.leb_spec (pfn s) 1024); [|discriminate].
    destruct (scan_body P s) as [s'| |] eqn:Hb; simpl.
    + apply scan_body_pfn_fine in Hb. apply IH. lia.
    + discriminate.
    + exfalso. exact (scan_body_fed _ Hb).
Qed.

(** With enough passes, the number of passes given does not matter. *)
Lemma block_loop_enough fuel1 fuel2 pfn mt size b :
  size - i b <= Z.of_nat fuel1 -> size - i b <= Z.of_nat fuel2 ->
  block_loop P fuel1 pfn mt size b = block_loop P fuel2 pfn mt size b.
Proof.
  revert fuel2 b. induction fuel1 as [|fuel1 IH]; intros fuel2 b H1 H2.
  - destruct fuel2; simpl;
      destruct (Z.ltb_spec (i b) size); try reflexivity; lia.
  - destruct fuel2; simpl;
      destruct (Z.ltb_spec (i b) size); try reflexivity; try lia.
    destruct (block_body P pfn mt b) as [b'| |] eqn:Hb; simpl; try reflexivity.
    apply block_body_i in Hb. apply IH; lia.
Qed.

Lemma scan_loop_enough fuel1 fuel2 s :
  0x400 + 1 - pfn s <= Z.of_nat fuel1 -> 0x400 + 1 - pfn s <= Z.of_nat fuel2 ->
  scan_loop P fuel1 s = scan_loop P fuel2 s.
Proof.
  revert fuel2 s. induction fuel1 as [|fuel1 IH]; intros fuel2 s H1 H2.
  - destruct fuel2; simpl;
      destruct (Z.leb_spec (pfn s) 1024); try reflexivity; lia.
  - destruct fuel2; simpl;
      destruct (Z.leb_spec (pfn s) 1024); try reflexivity; try lia.
    destruct (scan_body P s) as [s'| |] eqn:Hb; simpl; try reflexivity.
    apply scan_body_pfn_fine in Hb. apply IH; lia.
Qed.

(** The walk of a block, from where it stands. *)
Lemma stands_at_loop pfn mt b0 b fuel0 fuel :
  stands_at P pfn mt b0 b ->
  512 - i b0 <= Z.of_nat fuel0 -> 512 - i b <= Z.of_nat fuel ->
  block_loop P fuel0 pfn mt 512 b0 = block_loop P fuel pfn mt 512 b.
Proof.
  intros Hst. revert fuel. induction Hst as [|b b' Hst IH Hlt Hb];
    intros fuel H0 H1.
  - apply block_loop_enough; assumption.
  - change (Z.shiftl 1 pageblock_order) with 512 in Hlt.
    pose proof (block_body_i _ _ _ _ Hb) as Hi.
    rewrite (IH (S (Z.to_nat (512 - i b)))) by lia.
    simpl. destruct (Z.ltb_spec (i b) 512); [|lia].
    rewrite Hb. apply block_loop_enough; lia.
Qed.

(** The whole walk, from a state it has come to. *)
Lemma entered_loop s fuel :
  entered P s -> 0x400 + 1 - pfn s <= Z.of_nat fuel ->
  scan P = scan_loop P fuel s.
Proof.
  intros Hen. revert fuel. induction Hen as [|s s' Hen IH Hle Hb]; intros fuel Hf.
  - unfold scan. apply scan_loop_enough; [simpl; lia | exact Hf].
  - pose proof (scan_body_pfn_fine _ _ Hb) as Hp.
    rewrite (IH (S (Z.to_nat (0x400 + 1 - pfn s)))) by lia.
    simpl. destruct (Z.leb_spec (pfn s) 1024); [|lia].
    rewrite Hb. apply scan_loop_enough; lia.
Qed.



(** X29.  Whenever the fine walk comes to a page that is not free and whose
    compound frame count is more than a block, the whole scan halts with
    exit status 1, and the last two lines it has printed are the frame
    number with the count and the page. *)
Theorem bogus_page_halts_scan (s : state) (sec : mem_section) (mt : Z)
    (b : block) :
  entered P s -> pfn s <= 0x400 ->
  __pfn_to_section P (pfn s) = Some sec -> valid_section sec = true ->
  get_pageblock_migratetype P (pfn s) = Some mt ->
  stands_at P (pfn s) mt (fresh_block s) b -> i b < 512 ->
  bogus_at P (pfn s + i b) ->
  scan P = Halt (SystemExit 1)
                (printed_in_block b ++ bogus_diagnostic P (pfn s + i b)).
Proof.
  intros Hen Hle Hsec Hval Hmt Hst Hi Hbogus.
  rewrite (entered_loop s (S (Z.to_nat (0x400 + 1 - pfn s))) Hen) by lia.
  cbn [scan_loop]. destruct (Z.leb_spec (pfn s) 1024) as [_|Hgt]; [|lia].
  unfold scan_body. rewrite Hsec, Hval, Hmt. cbn [negb].
  change (Z.shiftl 1 pageblock_order) with 512.
  rewrite (stands_at_loop (pfn s) mt (fresh_block s) b (Z.to_nat 512)
             (S (Z.to_nat (512 - i b))) Hst) by (simpl; lia).
  cbn [block_loop]. destruct (Z.ltb_spec (i b) 512) as [_|Hge]; [|lia].
  rewrite block_body_bogus by exact Hbogus. reflexivity.
Qed.


End FineAbort.

Section FineAbortInstances.
Import Fine Snapshots Cases.

(** C9.  The scan does abort in other cases than the bogus compound size.
    On [fine_garbage_order], where frame 0 reads as a free page of an order
    no shift can take, it halts on [MemoryError] at line 162, with nothing
    printed but the start frame; the coarse script tests the order of the
    same page before shifting (line 225) and walks on.  On
    [fine_null_root] it halts on the attribute error of reading
    [section_mem_map] off [None] (line 34).  Neither snapshot holds a page
    with a bogus compound size. *)
Theorem fine_aborts_without_diagnostic :
  scan fine_garbage_order = Halt MemoryError [print_pfn 0]
  ∧ (forall x, ¬ bogus_at fine_garbage_order x)
  ∧ Coarse.block_body coarse_garbage_order 0 512 Coarse.initial
    = Ret (Coarse.add_pfn 1 Coarse.initial)
  ∧ scan fine_null_root = Halt AttributeError [print_pfn 0]
  ∧ (forall x, ¬ bogus_at fine_null_root x).
Proof.
  split; [vm_compute; reflexivity|].
  split.
  { intros x (_ & Hnr). unfold fine_garbage_order, fine_kernel in Hnr.
    cbn [pfn_to_page] in Hnr. destruct (x =? 0); vm_compute in Hnr;
      discriminate. }
  split; [vm_compute; reflexivity|].
  split; [vm_compute; reflexivity|].
  intros x (_ & Hnr). vm_compute in Hnr. discriminate.
Qed.

Lemma bogus_page_halts_scan_witness :
  scan fine_bogus
  = Halt (SystemExit 1)
         ([print_pfn 0] ++ bogus_diagnostic fine_bogus 3).
Proof.
  apply (bogus_page_halts_scan fine_bogus (initial fine_bogus) fine_section 1
           {| buddy := 0; lru := 3; reserved := 0; slab := 0; kmem := 0;
              other := 0; block_has_nonmovable := false; i := 3;
              printed_in_block := [print_pfn 0] |}).
  - apply entered_first.
  - vm_compute. discriminate.
  - reflexivity.
  - reflexivity.
  - reflexivity.
  - eapply stands_next; [eapply stands_next; [eapply stands_next;
      [apply stands_first|..]|..]|..];
      try (vm_compute; reflexivity).
  - vm_compute. reflexivity.
  - split; [vm_compute; discriminate | vm_compute; reflexivity].
Defined.


End FineAbortInstances.

Section FineRange.
Import Fine Snapshots.

(** The fine walk reads [min_low_pfn] and never [max_pfn]: it ends with the
    first block start beyond [0x400]. *)
Lemma fine_scan_end (P : prog) (s : state) :
  scan P = Go s -> 0x400 < pfn s.
Proof.
  unfold scan. generalize (Z.to_nat (0x400 + 1 - min_low_pfn P)), (initial P).
  intros fuel. induction fuel as [|fuel IH]; intros s0; simpl.
  - destruct (Z.leb_spec (pfn s0) 1024); [discriminate|].
    intros E; inversion E; subst. lia.
  - destruct (Z.leb_spec (pfn s0) 1024).
    + destruct (scan_body P s0) as [s1| |]; simpl; try discriminate. apply IH.
    + intros E; inversion E; subst. lia.
Qed.

(** C8.  On a snapshot of valid sections and one-frame LRU pages the fine
    scan, started at frame 0, classifies three blocks and stops at frame
    1536, whatever [max_pfn] is: with [max_pfn = 4096] the five blocks
    from frame 1536 on are never classified. *)
Theorem fine_walk_stops_at_0x400 :
  (forall m, exists s,
     scan (fine_kernel m (fun _ => fine_lru_page)) = Go s
     ∧ pfn s = 1536 ∧ pb s = 3)
  ∧ (exists s,
       scan (fine_kernel 4096 (fun _ => fine_lru_page)) = Go s
       ∧ pfn s = 1536 ∧ pb s = 3
       ∧ pfn s < max_pfn (fine_kernel 4096 (fun _ => fine_lru_page))
       ∧ pb s < 4096 / 512).
Proof.
  assert (H : forall m, exists s,
             scan (fine_kernel m (fun _ => fine_lru_page)) = Go s
             ∧ pfn s = 1536 ∧ pb s = 3).
  { intros m. eexists. split; [vm_compute; reflexivity|].
    split; reflexivity. }
  split; [exact H|].
  destruct (H 4096) as (s & Hs & Hp & Hb).
  exists s. rewrite Hp, Hb. repeat split; try assumption; reflexivity.
Qed.

End FineRange.

(** ** C6: a page that is both reserved and on the LRU *)

Section ReservedFirst.

Lemma fine_reserved_tag (P : Fine.prog) (pg : Fine.page) :
  Fine.PageReserved pg = true -> Fine.page_type P pg pg = Fine.RESERVED.
Proof. intros H. unfold Fine.page_type. rewrite H. reflexivity. Qed.

(** C6, as the code has it.  In the fine walk, where the page tested for
    the reserved flag is the page being classified (line 159), a page with
    the reserved and the LRU flag is tagged [RESERVED]: its frames go to
    the reserved tally and the LRU tally is left alone.  In the coarse walk
    such a page adds one to the reserved tally and nothing to the movable
    tally when it is neither free nor compound; when it is free it touches
    no tally; and when it is compound, the compound branch comes first and
    counts it by its LRU flag: the movable tally grows and the reserved
    tally does not. *)
Theorem reserved_precedes_lru :
  (forall (P : Fine.prog) (pfn mt : Z) (b : Fine.block),
     let pg := Fine.pfn_to_page P (pfn + Fine.i b) in
     Fine.PageReserved pg = true -> Fine.PageLRU pg = true ->
     Fine.page_type P pg pg = Fine.RESERVED
     ∧ (Z.pos (Fine.compound_nr pg) <= 512 ->
        exists b', Fine.block_body P pfn mt b = Fine.Go b'
          ∧ Fine.reserved b' = Fine.reserved b + Z.pos (Fine.compound_nr pg)
          ∧ Fine.lru b' = Fine.lru b
          ∧ Fine.buddy b' = Fine.buddy b
          ∧ Fine.i b' = Fine.i b + Z.pos (Fine.compound_nr pg))
     ∧ (forall b', Fine.block_body P pfn mt b = Fine.Go b' ->
          Fine.lru b' = Fine.lru b))
  ∧ (forall (P : Coarse.prog) (bs be : Z) (s : Coarse.state),
       let pg := Coarse.pfn_to_page P (Coarse.pfn s) in
       Coarse.PageReserved P pg = true -> Coarse.PageLRU P pg = true ->
       (Coarse.PageBuddy pg = false -> Coarse.PageCompound P pg = false ->
        Coarse.block_body P bs be s
        = Ret (Coarse.add_pfn 1 (Coarse.add_reserved 1 s))
        ∧ forall s', Coarse.block_body P bs be s = Ret s' ->
            Coarse.reserved_pages s' = Coarse.reserved_pages s + 1
            ∧ Coarse.movable_pages s' = Coarse.movable_pages s
            ∧ Coarse.unmovable_pages s' = Coarse.unmovable_pages s)
       ∧ (Coarse.PageBuddy pg = true ->
          forall s', Coarse.block_body P bs be s = Ret s' ->
            Coarse.reserved_pages s' = Coarse.reserved_pages s
            ∧ Coarse.movable_pages s' = Coarse.movable_pages s
            ∧ Coarse.unmovable_pages s' = Coarse.unmovable_pages s)
       ∧ (Coarse.PageBuddy pg = false -> Coarse.PageCompound P pg = true ->
          forall s', Coarse.block_body P bs be s = Ret s' ->
            Coarse.reserved_pages s' = Coarse.reserved_pages s
            ∧ Coarse.movable_pages s < Coarse.movable_pages s'
            ∧ Coarse.unmovable_pages s' = Coarse.unmovable_pages s)).
Proof.
  split.
  - intros P pfn mt b pg Hres Hlru.
    pose proof (fine_reserved_tag P pg Hres) as Htag.
    split; [exact Htag|]. split.
    + intros Hnr. unfold Fine.block_body. fold pg. rewrite Htag.
      rewrite bool_decide_false by discriminate.
      destruct (Z.gtb_spec (Z.pos (Fine.compound_nr pg)) 512); [lia|].
      eexists. split; [reflexivity|]. simpl. repeat split; reflexivity.
    + intros b'. unfold Fine.block_body. fold pg. rewrite Htag.
      rewrite bool_decide_false by discriminate.
      destruct (_ >? 512); [discriminate|].
      intros E; inversion E; subst. reflexivity.
  - intros P bs be s pg Hres Hlru. split; [|split].
    + intros Hb Hc. unfold Coarse.block_body. fold pg.
      rewrite Hb, Hc, Hres. split; [reflexivity|].
      intros s' E; inversion E; subst. simpl. repeat split; reflexivity.
    + intros Hb s'. unfold Coarse.block_body. fold pg. rewrite Hb.
      unfold Coarse.buddy_branch, py_assert, mbind, run_bind.
      repeat match goal with
             | |- context [if ?c then _ else _] => destruct c; simpl
             end;
        intros E; inversion E; subst; simpl; repeat split; reflexivity.
    + intros Hb Hc s'. unfold Coarse.block_body. fold pg. rewrite Hb, Hc.
      unfold Coarse.compound_branch, py_assert, mbind, run_bind.
      rewrite Hlru.
      pose proof (shift1_ge_1 _
                    (compound_order_nonneg P (Coarse.pfn s) pg)) as Hs.
      set (order := Coarse.compound_order P (Coarse.pfn s) pg) in *.
      repeat match goal with
             | |- context [if ?c then _ else _] => destruct c; simpl
             end;
        intros E; inversion E; subst; simpl; repeat split; lia.
Qed.

(** C6, as it is claimed, does not hold.  On [reserved_lru_head] the page
    of frame 0 has the reserved and the LRU flag and is the head of a
    compound page of order 9: the coarse walk counts its 512 frames as
    movable and none as reserved, and the scan records the block as a
    regular, movable one.  And the fine classifier tests the reserved flag
    of the module-level [page] (line 78), not of its argument: called on a
    reserved LRU page while [page] holds an ordinary LRU page, it answers
    [LRU]. *)
Lemma reserved_lru_head_counted_movable :
  Coarse.PageReserved Cases.reserved_lru_head Cases.reserved_lru_head_page = true
  ∧ Coarse.PageLRU Cases.reserved_lru_head Cases.reserved_lru_head_page = true
  ∧ Coarse.pfn_to_page Cases.reserved_lru_head 0 = Cases.reserved_lru_head_page
  ∧ (exists s',
       Coarse.block_body Cases.reserved_lru_head 0 512 Coarse.initial = Ret s'
       ∧ Coarse.movable_pages s' = 512 ∧ Coarse.reserved_pages s' = 0
       ∧ Coarse.pfn s' = 512)
  ∧ (exists s,
       Coarse.scan Cases.reserved_lru_head (2 ^ 64) = Ret s
       ∧ Coarse.regular_blocks s = 1
       ∧ Coarse.movable_2mb_pfns s = [0; 0]
       ∧ Coarse.unmovable_pages_in_unmovable_blocks s = [])
  ∧ Fine.PageReserved Snapshots.fine_reserved_lru_page = true
  ∧ Fine.PageLRU Snapshots.fine_reserved_lru_page = true
  ∧ Fine.page_type (Snapshots.fine_kernel 4096 (fun _ => Snapshots.fine_lru_page))
      Snapshots.fine_lru_page Snapshots.fine_reserved_lru_page = Fine.LRU.
Proof.
  split; [reflexivity|]. split; [reflexivity|]. split; [reflexivity|].
  split.
  { eexists. split; [vm_compute; reflexivity|]. repeat split; reflexivity. }
  split.
  { eexists. split; [vm_compute; reflexivity|]. repeat split; reflexivity. }
  split; [reflexivity|]. split; reflexivity.
Qed.

End ReservedFirst.

(** ** C4: the percentile *)

Section Percentile.
Import Stats.

Lemma py_int_of_integral (k : spec_float) (f : Z) :
  math_floor k = Ret f -> math_ceil k = Ret f -> py_int k = Ret f.
Proof.
  destruct k as [s|s| |s m e]; simpl; try discriminate.
  - intros H _. exact H.
  - destruct s; simpl; intros Hf Hc.
    + exact Hc.
    + exact Hf.
Qed.

(** C4.  [percentile] returns no value for an empty list; otherwise, with
    the rank [k = (len(N) - 1) * p], it returns the element at [k] when the
    floor and the ceiling of [k] agree, and else the truncated
    interpolation between the elements at the floor and at the ceiling;
    [percentile([5], 0.99)] is 5 and [percentile([1, 2, 3, 4], 0.5)] is 2. *)
Theorem percentile_as_specified (N : list Z) (p : spec_float) :
  percentile N p id = percentile_spec N p
  ∧ percentile [] p id = Ret None
  ∧ percentile [5] float_0_99 id = Ret (Some 5)
  ∧ percentile [1; 2; 3; 4] float_0_50 id = Ret (Some 2).
Proof.
  split; [|split; [reflexivity | split; vm_compute; reflexivity]].
  destruct N as [|x N]; [reflexivity|].
  unfold percentile, percentile_spec, rank, interpolate.
  rewrite bool_decide_false by discriminate.
  unfold mbind, run_bind, mret, run_ret, id.
  destruct (float_of_int _) as [n1| |]; try reflexivity.
  destruct (math_floor _) as [f| |] eqn:Hf; try reflexivity.
  destruct (math_ceil _) as [c| |] eqn:Hc; try reflexivity.
  case_bool_decide as Hfc.
  - subst c. rewrite (py_int_of_integral _ _ Hf Hc). reflexivity.
  - destruct (py_index (x :: N) f) as [lo| |]; try reflexivity.
    destruct (float_of_int c) as [cf| |]; try reflexivity.
    destruct (float_of_int lo) as [flo| |]; try reflexivity.
    destruct (py_index (x :: N) c) as [hi| |]; try reflexivity.
    destruct (float_of_int f) as [ff| |]; try reflexivity.
    destruct (float_of_int hi) as [fhi| |]; reflexivity.
Qed.

End Percentile.

(** ** Concrete instances *)

Section Instances.
Import Snapshots.

Lemma build_list_exact_witness :
  0 ∈ Coalesce.build_list {[ 0; 512 ]} 9
  ∧ 0 ∈ ({[ 0; 512 ]} : gset Z) ∧ 0 + Z.shiftl 1 (Z.of_N 9) ∈ ({[ 0; 512 ]} : gset Z)
  ∧ Coalesce.buddy_of 0 9 = 0 + Z.shiftl 1 (Z.of_N 9)
  ∧ 0 = Z.min 0 (Coalesce.buddy_of 0 9).
Proof.
  assert (H : 0 ∈ Coalesce.build_list {[ 0; 512 ]} 9).
  { apply (bool_decide_unpack (0 ∈ Coalesce.build_list {[ 0; 512 ]} 9)).
    vm_compute. exact I. }
  split; [exact H|].
  exact (proj2 (proj2 (proj2 (build_list_exact {[ 0; 512 ]} 9 0))) H).
Defined.

Lemma reserved_precedes_lru_witness :
  Coarse.PageReserved short_reserved_lru reserved_lru_page = true
  ∧ Coarse.PageLRU short_reserved_lru reserved_lru_page = true
  ∧ Coarse.block_body short_reserved_lru 0 100 (Coarse.initial)
    = Ret (Coarse.add_pfn 1 (Coarse.add_reserved 1 Coarse.initial))
  ∧ Fine.page_type (fine_kernel 4096 (fun _ => fine_reserved_lru_page))
      fine_reserved_lru_page fine_reserved_lru_page = Fine.RESERVED
  ∧ (exists s',
       Coarse.block_body Cases.reserved_lru_head 0 512 Coarse.initial = Ret s'
       ∧ Coarse.reserved_pages s' = Coarse.reserved_pages Coarse.initial
       ∧ Coarse.movable_pages Coarse.initial < Coarse.movable_pages s'
       ∧ Coarse.unmovable_pages s' = Coarse.unmovable_pages Coarse.initial).
Proof.
  split; [reflexivity|]. split; [reflexivity|]. split; [|split].
  - exact (proj1 (proj1 (proj2 reserved_precedes_lru short_reserved_lru 0 100
                           Coarse.initial eq_refl eq_refl) eq_refl eq_refl)).
  - exact (proj1 (proj1 reserved_precedes_lru
                    (fine_kernel 4096 (fun _ => fine_reserved_lru_page))
                    0 1 (Fine.fresh_block (Fine.initial
                       (fine_kernel 4096 (fun _ => fine_reserved_lru_page))))
                    eq_refl eq_refl)).
  - eexists. split; [vm_compute; reflexivity|].
    apply (proj2 (proj2 (proj2 reserved_precedes_lru Cases.reserved_lru_head
                           0 512 Coarse.initial eq_refl eq_refl))
             eq_refl eq_refl).
    vm_compute. reflexivity.
Defined.

(** The four-block scenario of the specification: two regular blocks, one
    unmovable-bearing block with 511 movable pages, 1 unmovable and none
    free, the reserved block dropped, two order-9 movable regions and no
    order-10 free region. *)
Example four_blocks_report :
  exists s r,
    Coarse.scan four_blocks (2 ^ 64) = Ret s
    ∧ Coarse.run_script four_blocks (2 ^ 64) = Ret r
    ∧ Coarse.regular_blocks s = 2
    ∧ Coarse.movable_2mb_pfns s = [0; 512]
    ∧ Coarse.unmovable_pages_in_unmovable_blocks s = [1]
    ∧ Coarse.movable_pages_in_unmovable_blocks s = [511]
    ∧ Coarse.p50_free_pages r = Some 0
    ∧ head (Coarse.movable_order r) = Some (9%N, 2%nat)
    ∧ head (Coarse.free_order r) = Some (10%N, 0%nat).
Proof.
  eexists. eexists.
  split; [vm_compute; reflexivity|].
  split; [vm_compute; reflexivity|].
  vm_compute. repeat split; reflexivity.
Qed.

End Instances.

(** * Further properties of the coarse script *)

(** ** The helpers: [align], [test_bit] and the flag tests *)

Section CoarseHelpers.
Import Coarse Snapshots.

(** X1.  For a positive [a], [align x a] is the least multiple of [a] that
    is not below [x]; it is less than [a] above [x]. *)
Theorem align_least_multiple (x a : Z) :
  0 < a ->
  align x a mod a = 0
  ∧ x <= align x a < x + a
  ∧ (forall y, y mod a = 0 -> x <= y -> align x a <= y)
  ∧ (x mod a = 0 -> align x a = x).
Proof.
  intros Ha.
  pose proof (align_multiple x a Ha) as Hm.
  pose proof (align_ge x a Ha) as Hge.
  pose proof (align_lt x a Ha) as Hlt.
  repeat split; try assumption.
  - intros y Hy Hxy.
    apply Z.mod_divide in Hm; [|lia]. apply Z.mod_divide in Hy; [|lia].
    destruct Hm as [q Hq], Hy as [r Hr]. rewrite Hq in *. subst y.
    destruct (Z.le_gt_cases q r) as [Hqr|Hqr].
    + apply Z.mul_le_mono_nonneg_r; lia.
    + assert ((r + 1) * a <= q * a) by (apply Z.mul_le_mono_nonneg_r; lia).
      lia.
  - intros H0. unfold align. rewrite H0. reflexivity.
Qed.

Lemma align_least_multiple_witness :
  align 1000 512 mod 512 = 0
  ∧ 1000 <= align 1000 512 < 1000 + 512
  ∧ (forall y, y mod 512 = 0 -> 1000 <= y -> align 1000 512 <= y)
  ∧ (1000 mod 512 = 0 -> align 1000 512 = 1000).
Proof. apply (align_least_multiple 1000 512). lia. Defined.

Lemma land_single_bit (x n : Z) :
  0 <= n ->
  Z.land x (Z.shiftl 1 n) = if Z.testbit x n then Z.shiftl 1 n else 0.
Proof.
  intros Hn. apply Z.bits_inj'. intros m Hm.
  rewrite Z.land_spec, Z.shiftl_1_l, Z.pow2_bits_eqb by lia.
  destruct (Z.eqb_spec n m) as [->|Hne].
  - destruct (Z.testbit x m) eqn:Hb.
    + rewrite Z.pow2_bits_eqb, Z.eqb_refl by lia. reflexivity.
    + rewrite Z.bits_0. reflexivity.
  - rewrite andb_false_r. destruct (Z.testbit x n).
    + rewrite Z.pow2_bits_eqb by lia.
      destruct (Z.eqb_spec n m); [contradiction | reflexivity].
    + rewrite Z.bits_0. reflexivity.
Qed.

Lemma test_bit_single (x n : Z) :
  0 <= n -> test_bit x (Z.shiftl 1 n) = Z.testbit x n.
Proof.
  intros Hn. unfold test_bit. rewrite land_single_bit by exact Hn.
  pose proof (shift1_ge_1 n Hn).
  destruct (Z.testbit x n).
  - apply Z.eqb_refl.
  - apply Z.eqb_neq. lia.
Qed.

Lemma land_single_bit_zero (x n : Z) :
  0 <= n -> (Z.land x (Z.shiftl 1 n) =? 0) = negb (Z.testbit x n).
Proof.
  intros Hn. rewrite land_single_bit by exact Hn.
  pose proof (shift1_ge_1 n Hn).
  destruct (Z.testbit x n); simpl.
  - apply Z.eqb_neq. lia.
  - reflexivity.
Qed.

(** X2.  [test_bit x mask] holds exactly when every bit of [mask] is set in
    [x]; with the one-bit masks the script builds from the kernel's
    non-negative bit numbers, each flag test reads that one bit of [flags],
    and [PageCompound] also reads bit 0 of [compound_head]. *)
Theorem flag_tests_read_bits (P : prog) (pg : page) :
  0 <= PG_reserved P -> 0 <= PG_head P -> 0 <= PG_lru P -> 0 <= PG_slab P ->
  (forall x mask,
     test_bit x mask = true
     <-> forall n, 0 <= n -> Z.testbit mask n = true -> Z.testbit x n = true)
  ∧ PageReserved P pg = Z.testbit (flags pg) (PG_reserved P)
  ∧ PageLRU P pg = Z.testbit (flags pg) (PG_lru P)
  ∧ PageSlab P pg = Z.testbit (flags pg) (PG_slab P)
  ∧ PageCompound P pg
    = Z.testbit (flags pg) (PG_head P) || Z.testbit (compound_head pg) 0.
Proof.
  intros Hr Hh Hl Hs. split.
  - intros x mask. unfold test_bit. rewrite Z.eqb_eq. split.
    + intros E n Hn Hm. rewrite <- E, Z.land_spec in Hm.
      apply andb_true_iff in Hm. apply Hm.
    + intros H. apply Z.bits_inj'. intros n Hn. rewrite Z.land_spec.
      destruct (Z.testbit mask n) eqn:Hm.
      * rewrite (H n Hn Hm). reflexivity.
      * apply andb_false_r.
  - unfold PageReserved, PageLRU, PageSlab, PageCompound,
      PG_reserved_mask, PG_lru_mask, PG_slab_mask, PG_head_mask.
    rewrite !test_bit_single by assumption.
    repeat split; try reflexivity.
    f_equal. change 1 with (Z.shiftl 1 0) at 1.
    rewrite land_single_bit_zero by lia. apply negb_involutive.
Qed.

Lemma flag_tests_read_bits_witness :
  PageReserved short_reserved_lru reserved_lru_page
  = Z.testbit (flags reserved_lru_page) (PG_reserved short_reserved_lru)
  ∧ PageCompound short_reserved_lru (first_tail 3)
    = Z.testbit (flags (first_tail 3)) (PG_head short_reserved_lru)
      || Z.testbit (compound_head (first_tail 3)) 0.
Proof.
  pose proof (flag_tests_read_bits short_reserved_lru reserved_lru_page
                ltac:(simpl; lia) ltac:(simpl; lia) ltac:(simpl; lia)
                ltac:(simpl; lia)) as (_ & H & _).
  pose proof (flag_tests_read_bits short_reserved_lru (first_tail 3)
                ltac:(simpl; lia) ltac:(simpl; lia) ltac:(simpl; lia)
                ltac:(simpl; lia)) as (_ & _ & _ & _ & H').
  split; [exact H | exact H'].
Defined.

End CoarseHelpers.

(** ** The helpers: sections, the pageblock bitmap and the free-page test *)

Section CoarseLookups.
Import Coarse Snapshots.

(** X3.  [PageBuddy] holds exactly when bits 28 to 31 of [page_type] are
    set and bit 7 is clear, whatever the other bits. *)
Theorem PageBuddy_bits (pg : page) :
  PageBuddy pg = true
  <-> (forall n, 28 <= n <= 31 -> Z.testbit (page_type pg) n = true)
      ∧ Z.testbit (page_type pg) 7 = false.
Proof.
  unfold PageBuddy. rewrite Z.eqb_eq.
  change (Z.lor PAGE_TYPE_BASE PG_buddy)
    with (Z.lor (Z.shiftl (Z.ones 4) 28) (Z.shiftl 1 7)).
  change PAGE_TYPE_BASE with (Z.shiftl (Z.ones 4) 28).
  assert (Hbase : forall n, 0 <= n ->
            Z.testbit (Z.shiftl (Z.ones 4) 28) n = true <-> 28 <= n <= 31).
  { intros n Hn. rewrite Z.shiftl_spec by lia.
    rewrite Z.ones_spec_iff by lia. lia. }
  assert (Hbit7 : forall n, 0 <= n ->
            Z.testbit (Z.shiftl 1 7) n = true <-> n = 7).
  { intros n Hn. rewrite Z.shiftl_1_l, Z.pow2_bits_eqb by lia.
    rewrite Z.eqb_eq. lia. }
  split.
  - intros E. split.
    + intros n Hn.
      assert (Hb : Z.testbit (Z.shiftl (Z.ones 4) 28) n = true)
        by (apply Hbase; lia).
      rewrite <- E, Z.land_spec in Hb. apply andb_true_iff in Hb. apply Hb.
    + destruct (Z.testbit (page_type pg) 7) eqn:H7; [|reflexivity].
      assert (Hb : Z.testbit (Z.shiftl (Z.ones 4) 28) 7 = true).
      { rewrite <- E, Z.land_spec, Z.lor_spec, H7. reflexivity. }
      apply Hbase in Hb; lia.
  - intros (Hhi & H7). apply Z.bits_inj'. intros n Hn.
    rewrite Z.land_spec, Z.lor_spec.
    destruct (Z.testbit (Z.shiftl (Z.ones 4) 28) n) eqn:Hb.
    + apply Hbase in Hb; [|lia]. rewrite (Hhi n Hb). reflexivity.
    + destruct (Z.testbit (Z.shiftl 1 7) n) eqn:Hs.
      * apply Hbit7 in Hs; [|lia]. subst n. rewrite H7. reflexivity.
      * apply andb_false_r.
Qed.

Lemma section_offset (pfn : Z) :
  Z.land pfn (Z.lnot PAGE_SECTION_MASK) = pfn mod 32768.
Proof.
  unfold PAGE_SECTION_MASK. rewrite Z.lnot_involutive.
  change (PAGES_PER_SECTION - 1) with (Z.ones 15).
  rewrite Z.land_ones by lia. reflexivity.
Qed.

Lemma subsection_index_range (pfn : Z) : 0 <= pfn mod 32768 / 512 < 64.
Proof.
  pose proof (Z.mod_pos_bound pfn 32768 ltac:(lia)).
  split; [apply Z.div_pos; lia | apply Z.div_lt_upper_bound; lia].
Qed.

(** X4.  A frame is online exactly when its section's address is not null,
    bits 2 and 1 of [section_mem_map] are set, and the bit of the frame's
    512-frame subsection is set in the first word of the subsection map;
    that bit number is below 64, so one word is enough. *)
Theorem pfn_online_bits (P : prog) (pfn : Z) :
  let sec := pfn_to_section P pfn in
  let idx := pfn mod 32768 / 512 in
  0 <= idx < 64
  ∧ (pfn_online P pfn = true
     <-> ms_address sec <> 0
         ∧ Z.testbit (section_mem_map sec) 2 = true
         ∧ Z.testbit (section_mem_map sec) 1 = true
         ∧ Z.testbit (subsection_map0 sec) idx = true).
Proof.
  intros sec idx. pose proof (subsection_index_range pfn) as Hidx.
  split; [exact Hidx|].
  unfold pfn_online. fold sec. rewrite section_offset.
  change PAGES_PER_SUBSECTION with 512. fold idx.
  unfold SECTION_IS_ONLINE, SECTION_HAS_MEM_MAP.
  rewrite !land_single_bit_zero by lia.
  rewrite test_bit_single by (unfold idx; lia).
  destruct (Z.eqb_spec (ms_address sec) 0) as [E|E].
  - split; [discriminate | tauto].
  - set (b2 := Z.testbit (section_mem_map sec) 2).
    set (b1 := Z.testbit (section_mem_map sec) 1).
    set (b0 := Z.testbit (subsection_map0 sec) idx).
    clearbody b2 b1 b0.
    destruct b2, b1, b0; cbn [negb]; split; try tauto; try discriminate;
      intros (_ & H2 & H1 & H0); discriminate.
Qed.

Lemma pfn_to_section_div (P : prog) (pfn : Z) :
  pfn_to_section P pfn
  = mem_section_at P (pfn / 512 / 64 / SECTIONS_PER_ROOT P)
                     (Z.land (pfn / 512 / 64) (SECTION_ROOT_MASK P)).
Proof.
  unfold pfn_to_section. change PFN_SECTION_SHIFT with 15.
  rewrite Z.shiftr_div_pow2 by lia.
  rewrite !(Z.div_div pfn 512 64) by lia. reflexivity.
Qed.

(** X5.  Frames of one 512-frame block are online together: the answer of
    [pfn_online] depends on the frame only through [pfn // 512]. *)
Theorem pfn_online_per_block (P : prog) (pfn pfn' : Z) :
  pfn / 512 = pfn' / 512 -> pfn_online P pfn = pfn_online P pfn'.
Proof.
  intros E. unfold pfn_online.
  rewrite !pfn_to_section_div, !section_offset, E.
  change PAGES_PER_SUBSECTION with 512.
  replace (pfn mod 32768 / 512) with (pfn' mod 32768 / 512); [reflexivity|].
  assert (H : forall x, x mod 32768 / 512 = (x / 512) mod 64).
  { intros x. change 32768 with (512 * 64).
    rewrite (Z.rem_mul_r x 512 64) by lia.
    rewrite (Z.mul_comm 512), Z.div_add by lia.
    rewrite Z.div_small by (apply Z.mod_pos_bound; lia). reflexivity. }
  rewrite !H, E. reflexivity.
Qed.

Lemma pfn_online_per_block_witness :
  pfn_online four_blocks 1024 = pfn_online four_blocks 1535.
Proof. apply (pfn_online_per_block four_blocks 1024 1535). reflexivity. Defined.

(** X6.  When a page of [struct mem_section] holds a power of two of them,
    the root index and the masked index that [pfn_to_section] computes split
    the section number without loss: the first times [SECTIONS_PER_ROOT]
    plus the second is the section number, so distinct sections are read
    from distinct cells of the table. *)
Theorem section_number_split (P : prog) (j pfn : Z) :
  0 <= j -> SECTIONS_PER_ROOT P = 2 ^ j ->
  let nr := Z.shiftr pfn PFN_SECTION_SHIFT in
  let root := nr / SECTIONS_PER_ROOT P in
  let index := Z.land nr (SECTION_ROOT_MASK P) in
  pfn_to_section P pfn = mem_section_at P root index
  ∧ 0 <= index < SECTIONS_PER_ROOT P
  ∧ root * SECTIONS_PER_ROOT P + index = nr.
Proof.
  intros Hj Hpow nr root index. split; [reflexivity|].
  assert (Hidx : index = nr mod 2 ^ j).
  { unfold index, SECTION_ROOT_MASK. rewrite Hpow.
    replace (2 ^ j - 1) with (Z.ones j) by (rewrite Z.ones_equiv; lia).
    apply Z.land_ones. exact Hj. }
  pose proof (Z.pow_pos_nonneg 2 j ltac:(lia) Hj) as Hpos.
  rewrite Hidx. unfold root. rewrite Hpow. split.
  - apply Z.mod_pos_bound. exact Hpos.
  - pose proof (Z.div_mod nr (2 ^ j) ltac:(lia)). lia.
Qed.

Lemma section_number_split_witness :
  let nr := Z.shiftr 9000000 PFN_SECTION_SHIFT in
  let root := nr / SECTIONS_PER_ROOT four_blocks in
  let index := Z.land nr (SECTION_ROOT_MASK four_blocks) in
  pfn_to_section four_blocks 9000000 = mem_section_at four_blocks root index
  ∧ 0 <= index < SECTIONS_PER_ROOT four_blocks
  ∧ root * SECTIONS_PER_ROOT four_blocks + index = nr.
Proof.
  apply (section_number_split four_blocks 8 9000000); [lia | reflexivity].
Defined.

End CoarseLookups.

Section PageblockBitmap.
Import Coarse Snapshots.

Lemma land_le_mask (x mask : Z) : 0 <= mask -> 0 <= Z.land x mask <= mask.
Proof.
  intros Hm. apply Z.ldiff_le; [exact Hm|].
  apply Z.bits_inj'. intros n Hn.
  rewrite Z.ldiff_spec, Z.land_spec, Z.bits_0.
  destruct (Z.testbit x n), (Z.testbit mask n); reflexivity.
Qed.

(** X7.  [get_pfnblock_flags_mask] reads the tag of the frame's block out
    of the section's bitmap: with [j] the number of the block within its
    section, bit [k] of the result is bit [(j * NR_PAGEBLOCK_BITS) mod 64 + k]
    of word [(j * NR_PAGEBLOCK_BITS) // 64], masked by bit [k] of the mask;
    the word index is below [NR_PAGEBLOCK_BITS] and the result is between 0
    and the mask. *)
Theorem pageblock_flags_field (P : prog) (pfn mask : Z) :
  0 < NR_PAGEBLOCK_BITS P -> 0 <= mask ->
  let j := pfn mod 32768 / 512 in
  let bitidx := j * NR_PAGEBLOCK_BITS P in
  let word := pageblock_flags (pfn_to_section P pfn) (bitidx / 64) in
  0 <= bitidx / 64 < NR_PAGEBLOCK_BITS P
  ∧ 0 <= get_pfnblock_flags_mask P pfn mask <= mask
  ∧ (forall k, 0 <= k ->
       Z.testbit (get_pfnblock_flags_mask P pfn mask) k
       = Z.testbit word (bitidx mod 64 + k) && Z.testbit mask k).
Proof.
  intros Hnr Hmask j bitidx word.
  pose proof (subsection_index_range pfn) as Hj. fold j in Hj.
  assert (Hget : get_pfnblock_flags_mask P pfn mask
                 = Z.land (Z.shiftr word (bitidx mod 64)) mask).
  { unfold get_pfnblock_flags_mask.
    change (PAGES_PER_SECTION - 1) with (Z.ones 15).
    rewrite Z.land_ones by lia.
    change pageblock_order with 9. rewrite (Z.shiftr_div_pow2 _ 9) by lia.
    change (2 ^ 15) with 32768. change (2 ^ 9) with 512. fold j. fold bitidx.
    change (BITS_PER_LONG - 1) with (Z.ones 6).
    rewrite Z.land_ones by lia. reflexivity. }
  assert (Hlo : 0 <= bitidx) by (apply Z.mul_nonneg_nonneg; lia).
  assert (Hhi : bitidx <= 63 * NR_PAGEBLOCK_BITS P)
    by (apply Z.mul_le_mono_nonneg_r; lia).
  split; [|split].
  - split.
    + apply Z.div_pos; lia.
    + apply Z.div_lt_upper_bound; lia.
  - rewrite Hget. apply land_le_mask. exact Hmask.
  - intros k Hk. rewrite Hget, Z.land_spec, Z.shiftr_spec by exact Hk.
    rewrite (Z.add_comm k). reflexivity.
Qed.

Lemma pageblock_flags_field_witness :
  0 <= get_pfnblock_flags_mask four_blocks 1024 MIGRATETYPE_MASK
    <= MIGRATETYPE_MASK.
Proof.
  apply (pageblock_flags_field four_blocks 1024 MIGRATETYPE_MASK);
    [reflexivity | discriminate].
Defined.

End PageblockBitmap.

(** ** What the coarse walk keeps and where it stops *)

Section CoarseInvariants.
Import Coarse Snapshots Cases Vocabulary.
Variable P : prog.

(** A property of the state that every step of the walk keeps is kept by
    the whole walk. *)
Lemma block_loop_keeps (I : state -> Prop) fuel bs be s s' :
  (forall bs be s s', I s -> block_body P bs be s = Ret s' -> I s') ->
  I s -> block_loop P fuel bs be s = Ret s' -> I s'.
Proof.
  intros Hbody. revert s. induction fuel as [|fuel IH]; intros s Hs; simpl.
  - destruct (pfn s <? be); [discriminate|]. intros E; inversion E; subst; exact Hs.
  - destruct (pfn s <? be).
    + destruct (block_body P bs be s) as [s1| |] eqn:Hb; simpl; try discriminate.
      apply IH. eapply Hbody; eassumption.
    + intros E; inversion E; subst; exact Hs.
Qed.

Lemma scan_loop_keeps (I : state -> Prop) fuel b s s' :
  (forall bs be s s', I s -> block_body P bs be s = Ret s' -> I s') ->
  (forall bs s, I s -> I (aggregate bs s)) ->
  (forall s, I s ->
     I (set_reserved_pages 0 (set_movable_pages 0 (set_unmovable_pages 0 s)))) ->
  (forall s v, I s -> I (set_pfn v s)) ->
  (forall s, I s -> I (fast_path P s)) ->
  I s -> scan_loop P fuel b s = Ret s' -> I s'.
Proof.
  intros Hbody Hagg Hreset Hskip Hfast.
  revert s. induction fuel as [|fuel IH]; intros s Hs; simpl.
  - destruct (pfn s <? max_pfn P); [discriminate|].
    intros E; inversion E; subst; exact Hs.
  - destruct (pfn s <? max_pfn P);
      [|intros E; inversion E; subst; exact Hs].
    destruct (scan_body P b s) as [s1| |] eqn:Hb; simpl; try discriminate.
    apply IH. revert Hb. unfold scan_body.
    destruct (negb (pfn_online P (pfn s))).
    + intros E; inversion E; subst. apply Hskip. exact Hs.
    + cbn [pfn set_unmovable_pages set_movable_pages set_reserved_pages].
      destruct (pfn s >? b).
      * intros E; inversion E; subst. apply (Hfast s Hs).
      * unfold mbind, run_bind.
        match goal with |- context [block_loop P ?f ?bs ?be ?st] =>
          destruct (block_loop P f bs be st) as [s2| |] eqn:Hl end;
          try discriminate.
        intros E; inversion E; subst. apply Hagg.
        eapply block_loop_keeps; [exact Hbody | | exact Hl].
        apply Hreset. exact Hs.
Qed.

Lemma block_body_paired bs be s s' :
  paired_samples s -> block_body P bs be s = Ret s' -> paired_samples s'.
Proof.
  unfold paired_samples, block_body, buddy_branch, compound_branch,
    py_assert, mbind, run_bind.
  intros Hs.
  repeat match goal with
         | |- context [if ?c then _ else _] => destruct c; simpl
         end;
    intros E; inversion E; subst; simpl; rewrite ?length_app; simpl; lia.
Qed.

Lemma scan_paired b s :
  scan P b = Ret s -> paired_samples s.
Proof.
  unfold scan. apply (scan_loop_keeps paired_samples).
  - apply block_body_paired.
  - intros bs s0 Hs. unfold paired_samples, aggregate in *.
    destruct (reserved_pages s0 =? 512); [exact Hs|].
    destruct (unmovable_pages s0 =? 0); simpl; [exact Hs|].
    rewrite !length_app. simpl. lia.
  - intros s0 Hs. exact Hs.
  - intros s0 v Hs. exact Hs.
  - intros s0 Hs. exact Hs.
  - reflexivity.
Qed.

Lemma free_pages_stop M U e :
  length U = length M -> free_pages M U = Stop e -> e = AssertionError 299.
Proof.
  revert M. induction U as [|u U IH]; intros [|m M] Hlen;
    simpl in *; try discriminate; try lia.
  unfold py_assert, mbind, run_bind.
  destruct (512 - m - u >=? 0).
  - destruct (free_pages M U) as [F|e'|] eqn:HF; try discriminate.
    intros E; inversion E; subst. apply (IH M); [lia | exact HF].
  - intros E; inversion E; reflexivity.
Qed.

(** X8.  The two sample arrays grow together: after any scan that returns
    they have the same length, as line 288 asserts, and the loop of lines
    293-300 reads both within bounds, so that it can stop only on its own
    assertion. *)
Theorem sample_arrays_same_length (b : Z) (s : state) :
  scan P b = Ret s ->
  length (movable_pages_in_unmovable_blocks s)
  = length (unmovable_pages_in_unmovable_blocks s)
  ∧ py_assert 288 (Nat.eqb (length (movable_pages_in_unmovable_blocks s))
                           (length (unmovable_pages_in_unmovable_blocks s)))
    = Ret tt
  ∧ forall e,
      free_pages (movable_pages_in_unmovable_blocks s)
                 (unmovable_pages_in_unmovable_blocks s) = Stop e ->
      e = AssertionError 299.
Proof.
  intros Hs. apply scan_paired in Hs. unfold paired_samples in Hs.
  split; [symmetry; exact Hs|]. split.
  - rewrite Hs, Nat.eqb_refl. reflexivity.
  - intros e. apply free_pages_stop. exact Hs.
Qed.

(** X9.  Within a block, a step of the walk can carry [pfn] past the end of
    the block only for a free page of order 10 or for a compound page of
    order 10 that is not on the LRU, and then by exactly 1024 frames; every
    other overrun stops the scan on an assertion. *)
Theorem overrun_only_at_order_10 (bs be : Z) (s s' : state) :
  block_body P bs be s = Ret s' -> pfn s < be -> be < pfn s' ->
  let pg := pfn_to_page P (pfn s) in
  pfn s' = pfn s + 1024
  ∧ ((PageBuddy pg = true ∧ private pg = 10%N)
     ∨ (PageBuddy pg = false ∧ PageCompound P pg = true
        ∧ PageLRU P pg = false ∧ compound_order P (pfn s) pg = 10)).
Proof.
  intros Hb Hlt Hgt pg. revert Hb. unfold block_body. fold pg.
  destruct (PageBuddy pg) eqn:Hbuddy.
  - unfold buddy_branch, py_assert, mbind, run_bind.
    destruct (Z.of_N (private pg) <? MAX_ORDER) eqn:Hord; simpl.
    + destruct (Z.gtb_spec (pfn s + (Z.shiftl 1 (Z.of_N (private pg)) - 1) + 1) be).
      * destruct (Z.eqb_spec (Z.of_N (private pg)) 10) as [E|E]; simpl;
          [|discriminate].
        intros Hret; inversion Hret; subst; simpl. rewrite E.
        split; [change (Z.shiftl 1 10) with 1024; lia|]. left. split; [reflexivity | lia].
      * intros Hret; inversion Hret; subst; simpl in Hgt. lia.
    + destruct (Z.gtb_spec (pfn s + 1) be); [lia|].
      intros Hret; inversion Hret; subst; simpl in Hgt. lia.
  - destruct (PageCompound P pg) eqn:Hcomp.
    + unfold compound_branch, py_assert, mbind, run_bind. fold pg.
      set (order := compound_order P (pfn s) pg).
      destruct (order <? MAX_ORDER) eqn:Hord;
        destruct (PageLRU P pg) eqn:Hlru; simpl.
      * destruct (Z.eqb_spec order 9) as [E9|E9]; simpl; [|discriminate].
        match goal with |- context [?a >? be] => destruct (Z.gtb_spec a be) end.
        -- rewrite E9. simpl. discriminate.
        -- intros Hret; inversion Hret; subst; simpl in Hgt. lia.
      * match goal with |- context [?a >? be] => destruct (Z.gtb_spec a be) end.
        -- destruct (Z.eqb_spec order 10) as [E|E]; simpl; [|discriminate].
           intros Hret; inversion Hret; subst; simpl. rewrite E.
           split; [change (Z.shiftl 1 10) with 1024; lia|]. right. repeat split; reflexivity.
        -- intros Hret; inversion Hret; subst; simpl in Hgt. lia.
      * match goal with |- context [?a >? be] => destruct (Z.gtb_spec a be) end;
          [lia|]. intros Hret; inversion Hret; subst; simpl in Hgt. lia.
      * match goal with |- context [?a >? be] => destruct (Z.gtb_spec a be) end;
          [lia|]. intros Hret; inversion Hret; subst; simpl in Hgt. lia.
    + destruct (PageReserved P pg);
        [intros Hret; inversion Hret; subst; simpl in Hgt; lia|].
      destruct (PageLRU P pg || PageMovable pg);
        intros Hret; inversion Hret; subst; simpl in Hgt; lia.
Qed.

(** X10.  A compound page on the LRU whose order is below [MAX_ORDER] and
    is not 9 stops the scan on the assertion of line 243; a tail page on
    the LRU is such a page, its order being read as 0. *)
Theorem lru_compound_must_be_order_9 (bs be : Z) (s : state) :
  let pg := pfn_to_page P (pfn s) in
  PageBuddy pg = false -> PageCompound P pg = true -> PageLRU P pg = true ->
  compound_order P (pfn s) pg < MAX_ORDER ->
  compound_order P (pfn s) pg <> 9 ->
  block_body P bs be s = Stop (AssertionError 243)
  ∧ (test_bit (flags pg) (PG_head_mask P) = false ->
     compound_order P (pfn s) pg = 0).
Proof.
  intros pg Hb Hc Hl Ho H9. split.
  - unfold block_body. fold pg. rewrite Hb, Hc.
    unfold compound_branch, py_assert, mbind, run_bind. fold pg. rewrite Hl.
    destruct (Z.ltb_spec (compound_order P (pfn s) pg) MAX_ORDER); [|lia].
    destruct (Z.eqb_spec (compound_order P (pfn s) pg) 9); [contradiction|].
    reflexivity.
  - intros Hh. unfold compound_order. rewrite Hh. reflexivity.
Qed.

Lemma block_body_stride bs be s s' :
  block_body P bs be s = Ret s' -> pfn s' <= pfn s + 1024.
Proof.
  unfold block_body, buddy_branch, compound_branch, py_assert, mbind, run_bind.
  set (order := compound_order P (pfn s) (pfn_to_page P (pfn s))).
  assert (Hpow : forall n, 0 <= n < MAX_ORDER -> Z.shiftl 1 n <= 1024).
  { intros n Hn. rewrite Z.shiftl_1_l. change 1024 with (2 ^ 10).
    apply Z.pow_le_mono_r; unfold MAX_ORDER in Hn; lia. }
  pose proof (compound_order_nonneg P (pfn s) (pfn_to_page P (pfn s))) as Ho.
  fold order in Ho.
  destruct (PageBuddy _).
  - destruct (Z.ltb_spec (Z.of_N (private (pfn_to_page P (pfn s)))) MAX_ORDER);
      [pose proof (Hpow (Z.of_N (private (pfn_to_page P (pfn s)))) ltac:(lia))|];
      simpl;
      repeat match goal with
             | |- context [if ?c then _ else _] => destruct c; simpl
             end;
      intros E; inversion E; subst; simpl; lia.
  - destruct (PageCompound _ _).
    + destruct (Z.ltb_spec order MAX_ORDER);
        [pose proof (Hpow order ltac:(lia))|]; simpl;
        repeat match goal with
               | |- context [if ?c then _ else _] => destruct c; simpl
               end;
        intros E; inversion E; subst; simpl; lia.
    + repeat match goal with
             | |- context [if ?c then _ else _] => destruct c; simpl
             end;
        intros E; inversion E; subst; simpl; lia.
Qed.

Lemma block_loop_stride fuel bs be s s' :
  pfn s <= be + 1023 ->
  block_loop P fuel bs be s = Ret s' -> pfn s' <= be + 1023.
Proof.
  revert s. induction fuel as [|fuel IH]; intros s Hs; simpl.
  - destruct (pfn s <? be); [discriminate|].
    intros E; inversion E; subst; exact Hs.
  - destruct (Z.ltb_spec (pfn s) be) as [Hlt|Hge].
    + destruct (block_body P bs be s) as [s1| |] eqn:Hb; simpl; try discriminate.
      apply IH. apply block_body_stride in Hb. lia.
    + intros E; inversion E; subst; exact Hs.
Qed.

Lemma scan_body_stride b s s' :
  pfn s < max_pfn P -> scan_body P b s = Ret s' -> pfn s' <= max_pfn P + 1023.
Proof.
  intros Hlt. unfold scan_body.
  destruct (negb (pfn_online P (pfn s))).
  - intros E; inversion E; subst; simpl.
    pose proof (align_lt (pfn s + 1) MAX_ORDER_NR_PAGES ltac:(reflexivity)) as H.
    change MAX_ORDER_NR_PAGES with 1024 in *. lia.
  - cbn [pfn set_unmovable_pages set_movable_pages set_reserved_pages].
    destruct (pfn s >? b).
    + intros E; inversion E; subst; simpl. lia.
    + unfold mbind, run_bind.
      match goal with |- context [block_loop P ?f ?bs ?be ?st] =>
        destruct (block_loop P f bs be st) as [s1| |] eqn:Hb end;
        try discriminate.
      intros E; inversion E; subst. rewrite aggregate_pfn.
      apply block_loop_stride in Hb; [|simpl;
        pose proof (block_end_gt P (pfn s) Hlt); lia].
      lia.
Qed.

Lemma scan_loop_stride fuel b s s' :
  pfn s <= max_pfn P + 1023 ->
  scan_loop P fuel b s = Ret s' ->
  max_pfn P <= pfn s' <= max_pfn P + 1023.
Proof.
  revert s. induction fuel as [|fuel IH]; intros s Hs; simpl.
  - destruct (Z.ltb_spec (pfn s) (max_pfn P)); [discriminate|].
    intros E; inversion E; subst. lia.
  - destruct (Z.ltb_spec (pfn s) (max_pfn P)) as [Hlt|Hge].
    + destruct (scan_body P b s) as [s1| |] eqn:Hb; simpl; try discriminate.
      apply IH. eapply scan_body_stride; eassumption.
    + intros E; inversion E; subst. lia.
Qed.

(** X11.  A scan that returns has walked the whole range and little more:
    it ends with [pfn] at [max_pfn] or at most 1023 frames beyond it, the
    reach of an order-10 run or of the skip over an offline section. *)
Theorem walk_ends_near_max_pfn (b : Z) (s : state) :
  0 <= max_pfn P -> scan P b = Ret s ->
  max_pfn P <= pfn s <= max_pfn P + 1023.
Proof.
  intros Hm. apply scan_loop_stride. simpl. lia.
Qed.

Ltac unfold_state :=
  cbv [add_pfn add_movable add_unmovable add_reserved add_regular
       append_movable_2mb append_free_4mb append_unmovable_sample
       append_movable_sample set_pfn set_movable_2mb_pfns set_free_4mb_pfns
       set_regular_blocks set_unmovable_samples set_movable_samples
       set_unmovable_pages set_movable_pages set_reserved_pages with_tallies
       movable_2mb_pfns free_4mb_pfns regular_blocks
       unmovable_pages_in_unmovable_blocks movable_pages_in_unmovable_blocks
       pfn unmovable_pages movable_pages reserved_pages].

Lemma block_body_reserved bs be s :
  ordinary_reserved P (pfn_to_page P (pfn s)) ->
  block_body P bs be s = Ret (add_pfn 1 (add_reserved 1 s)).
Proof.
  intros (H1 & H2 & H3). unfold block_body. rewrite H1, H2, H3. reflexivity.
Qed.

Lemma block_loop_reserved fuel bs be s :
  (forall x, pfn s <= x < be -> ordinary_reserved P (pfn_to_page P x)) ->
  pfn s <= be -> be - pfn s <= Z.of_nat fuel ->
  block_loop P fuel bs be s
  = Ret (set_pfn be (add_reserved (be - pfn s) s)).
Proof.
  revert s. induction fuel as [|fuel IH]; intros s Hpg Hle Hf; simpl.
  - destruct (Z.ltb_spec (pfn s) be) as [Hlt|Hge]; [lia|].
    destruct s; simpl in *. unfold set_pfn, add_reserved, set_reserved_pages.
    simpl. f_equal. f_equal; lia.
  - destruct (Z.ltb_spec (pfn s) be) as [Hlt|Hge].
    + rewrite block_body_reserved by (apply Hpg; lia).
      unfold mbind, run_bind. rewrite IH.
      * destruct s; simpl. unfold set_pfn, add_reserved, set_reserved_pages.
        simpl. f_equal. f_equal; lia.
      * intros x Hx. apply Hpg. simpl in Hx. lia.
      * simpl. lia.
      * simpl. lia.
    + destruct s; simpl in *. unfold set_pfn, add_reserved, set_reserved_pages.
      simpl. f_equal. f_equal; lia.
Qed.

Lemma align_next_block (x : Z) :
  x mod 512 = 0 -> align (x + 1) pageblock_nr_pages = x + 512.
Proof.
  intros Hx. change pageblock_nr_pages with 512.
  pose proof (align_multiple (x + 1) 512 ltac:(lia)) as Hm.
  pose proof (align_ge (x + 1) 512 ltac:(lia)) as Hge.
  pose proof (align_lt (x + 1) 512 ltac:(lia)) as Hlt.
  apply Z.mod_divide in Hm; [|lia]. apply Z.mod_divide in Hx; [|lia].
  destruct Hm as [q Hq], Hx as [r Hr]. rewrite Hq in *. subst x. lia.
Qed.

(** X12.  A whole, aligned block of ordinary reserved pages is dropped: the
    walk passes over its 512 frames and changes no list and no counter. *)
Theorem reserved_block_dropped (b : Z) (s : state) :
  pfn s mod 512 = 0 -> pfn s + 512 <= max_pfn P -> pfn s <= b ->
  pfn_online P (pfn s) = true ->
  (forall x, pfn s <= x < pfn s + 512 ->
     ordinary_reserved P (pfn_to_page P x)) ->
  scan_body P b s = Ret (with_tallies (pfn s + 512) 0 0 512 s).
Proof.
  intros Hal Hmax Hb Hon Hpg. unfold scan_body. rewrite Hon. cbn [negb].
  cbn [pfn set_unmovable_pages set_movable_pages set_reserved_pages].
  destruct (Z.gtb_spec (pfn s) b) as [Hgt|_]; [lia|].
  rewrite (align_next_block _ Hal).
  rewrite Z.min_l by lia.
  rewrite block_loop_reserved.
  - destruct s as [m2 f4 rb us ms x u m r]. simpl.
    replace (x + 512 - x) with 512 by lia. reflexivity.
  - intros x Hx. apply Hpg. simpl in Hx. exact Hx.
  - simpl. lia.
  - simpl. lia.
Qed.

(** X13.  A free page of order 10 at the start of a block is taken as two
    blocks at once: the walk moves 1024 frames on, counts two regular
    blocks, records the start twice and the start plus 512 once as order-9
    movable regions, and the start once as an order-10 free region. *)
Theorem free_order_10_page (b : Z) (s : state) :
  let pg := pfn_to_page P (pfn s) in
  pfn s < max_pfn P -> pfn s <= b -> pfn_online P (pfn s) = true ->
  PageBuddy pg = true -> private pg = 10%N ->
  scan_body P b s
  = Ret (set_movable_2mb_pfns
           (movable_2mb_pfns s ++ [pfn s; pfn s + 512; pfn s])
           (set_free_4mb_pfns (free_4mb_pfns s ++ [pfn s])
              (set_regular_blocks (regular_blocks s + 2)
                 (with_tallies (pfn s + 1024) 0 0 0 s)))).
Proof.
  intros pg Hlt Hb Hon Hbuddy Hord. unfold scan_body. rewrite Hon. cbn [negb].
  cbn [pfn set_unmovable_pages set_movable_pages set_reserved_pages].
  destruct (Z.gtb_spec (pfn s) b) as [Hgt|_]; [lia|].
  pose proof (block_end_gt P (pfn s) Hlt) as Hend.
  pose proof (align_lt (pfn s + 1) pageblock_nr_pages ltac:(reflexivity)) as Hal.
  change pageblock_nr_pages with 512 in *.
  set (be := Z.min (align (pfn s + 1) 512) (max_pfn P)) in *.
  assert (Hbe : be <= pfn s + 512) by (unfold be; lia).
  clearbody be.
  set (s0 := set_reserved_pages 0 (set_movable_pages 0 (set_unmovable_pages 0 s))).
  assert (Hp0 : pfn s0 = pfn s) by reflexivity.
  assert (Hbody : block_body P (pfn s) be s0
            = Ret (append_free_4mb (pfn s)
                     (append_movable_2mb (pfn s + 512)
                        (append_movable_2mb (pfn s)
                           (add_regular 1 (add_pfn 1024 s0)))))).
  { unfold block_body. rewrite Hp0. fold pg. rewrite Hbuddy.
    unfold buddy_branch. rewrite Hord.
    change (Z.of_N 10 <? MAX_ORDER) with true.
    change (Z.of_N 10 =? 10) with true.
    change (Z.shiftl 1 (Z.of_N 10) - 1) with 1023.
    cbn [add_pfn pfn set_pfn]. rewrite Hp0.
    destruct (Z.gtb_spec (pfn s + 1023 + 1) be) as [_|Hle]; [|lia].
    cbn [py_assert]. unfold mbind, run_bind.
    change pageblock_nr_pages with 512.
    subst s0. destruct s as [m2 f4 rb us ms x u m r]. unfold_state.
    replace (x + 1023 + 1) with (x + 1024) by lia. reflexivity. }
  destruct (Z.to_nat (be - pfn s)) as [|fuel] eqn:Hfuel; [lia|].
  cbn [block_loop]. rewrite Hp0.
  destruct (Z.ltb_spec (pfn s) be) as [_|Hge]; [|lia].
  rewrite Hbody. unfold mbind, run_bind.
  match goal with |- context [block_loop P fuel ?bs be ?st] =>
    assert (Hloop : block_loop P fuel bs be st = Ret st) end.
  { destruct fuel; simpl;
      (destruct (Z.ltb_spec (pfn s + 1024) be); [lia | reflexivity]). }
  rewrite Hloop. subst s0. destruct s as [m2 f4 rb us ms x u m r].
  unfold aggregate. unfold_state. simpl.
  rewrite <- !app_assoc. simpl.
  replace (rb + 1 + 1) with (rb + 2) by lia. reflexivity.
Qed.

Lemma scan_loop_offline fuel b s :
  (forall x, pfn s <= x < max_pfn P -> pfn_online P x = false) ->
  scan_loop P fuel b s = OutOfFuel
  ∨ exists v, scan_loop P fuel b s = Ret (set_pfn v s).
Proof.
  revert s. induction fuel as [|fuel IH]; intros s Hoff; simpl.
  - destruct (pfn s <? max_pfn P); [left; reflexivity|].
    right. exists (pfn s). destruct s; reflexivity.
  - destruct (Z.ltb_spec (pfn s) (max_pfn P)) as [Hlt|Hge].
    + unfold scan_body. rewrite (Hoff (pfn s)) by lia. cbn [negb].
      unfold mbind, run_bind.
      pose proof (align_ge (pfn s + 1) MAX_ORDER_NR_PAGES ltac:(reflexivity)).
      destruct (IH (set_pfn (align (pfn s + 1) MAX_ORDER_NR_PAGES) s))
        as [Hout|(v & Hv)].
      * intros x Hx. apply Hoff. simpl in Hx. lia.
      * left. exact Hout.
      * right. exists v. rewrite Hv. destruct s; reflexivity.
    + right. exists (pfn s). destruct s; reflexivity.
Qed.

(** X14.  When no frame below [max_pfn] is online (or [max_pfn] is 0), the
    walk records nothing, and the report, after printing its region counts,
    stops with a division by zero at the fraction of unmovable blocks. *)
Theorem nothing_online_no_report (b : Z) :
  (forall x, 0 <= x < max_pfn P -> pfn_online P x = false) ->
  (exists v, scan P b = Ret (set_pfn v initial))
  ∧ run_script P b = Stop ZeroDivisionError.
Proof.
  intros Hoff.
  assert (Hs : exists v, scan P b = Ret (set_pfn v initial)).
  { destruct (scan_loop_offline (Z.to_nat (max_pfn P)) b initial) as [Hout|Hv].
    - exact Hoff.
    - exfalso. revert Hout. apply scan_loop_fuel. simpl. lia.
    - exact Hv. }
  split; [exact Hs|].
  destruct Hs as (v & Hv). unfold run_script. rewrite Hv.
  vm_compute. reflexivity.
Qed.

End CoarseInvariants.

Section CoarseInvariantInstances.
Import Coarse Snapshots Cases Vocabulary.

Lemma sample_arrays_same_length_witness :
  exists s,
    scan four_blocks (2 ^ 64) = Ret s
    ∧ length (movable_pages_in_unmovable_blocks s)
      = length (unmovable_pages_in_unmovable_blocks s).
Proof.
  eexists. split; [vm_compute; reflexivity|].
  refine (proj1 (sample_arrays_same_length four_blocks (2 ^ 64) _ _)).
  vm_compute. reflexivity.
Defined.

Lemma overrun_only_at_order_10_witness :
  exists s',
    block_body torn_head 0 512 (set_pfn 1 initial) = Ret s'
    ∧ pfn s' = 1 + 1024.
Proof.
  eexists. split; [vm_compute; reflexivity|].
  refine (proj1 (overrun_only_at_order_10 torn_head 0 512 (set_pfn 1 initial)
                   _ _ _ _)).
  - vm_compute. reflexivity.
  - simpl. lia.
  - simpl. lia.
Defined.

Lemma lru_compound_must_be_order_9_witness :
  block_body small_folio 0 512 initial = Stop (AssertionError 243).
Proof.
  refine (proj1 (lru_compound_must_be_order_9 small_folio 0 512 initial
                   _ _ _ _ _)).
  - reflexivity.
  - reflexivity.
  - reflexivity.
  - vm_compute. reflexivity.
  - vm_compute. discriminate.
Defined.

Lemma walk_ends_near_max_pfn_witness :
  exists s,
    scan torn_head (2 ^ 64) = Ret s
    ∧ max_pfn torn_head <= pfn s <= max_pfn torn_head + 1023.
Proof.
  eexists. split; [vm_compute; reflexivity|].
  apply (walk_ends_near_max_pfn torn_head (2 ^ 64)).
  - simpl. lia.
  - vm_compute. reflexivity.
Defined.

Lemma reserved_block_dropped_witness :
  scan_body four_blocks (2 ^ 64) (set_pfn 1536 initial)
  = Ret (with_tallies (1536 + 512) 0 0 512 (set_pfn 1536 initial)).
Proof.
  apply (reserved_block_dropped four_blocks (2 ^ 64) (set_pfn 1536 initial)).
  - reflexivity.
  - simpl. lia.
  - simpl. lia.
  - reflexivity.
  - intros x Hx. simpl in Hx. simpl.
    destruct (Z.ltb_spec x 512); [lia|].
    destruct (Z.ltb_spec x 1024); [lia|].
    destruct (Z.eqb_spec x 1024); [lia|].
    destruct (Z.ltb_spec x 1536); [lia|].
    vm_compute. repeat split; reflexivity.
Defined.

Lemma free_order_10_page_witness :
  scan_body free_4mb (2 ^ 64) initial
  = Ret (set_movable_2mb_pfns ([] ++ [0; 0 + 512; 0])
           (set_free_4mb_pfns ([] ++ [0])
              (set_regular_blocks (0 + 2)
                 (with_tallies (0 + 1024) 0 0 0 initial)))).
Proof.
  apply (free_order_10_page free_4mb (2 ^ 64) initial).
  - simpl. lia.
  - simpl. lia.
  - reflexivity.
  - reflexivity.
  - reflexivity.
Defined.

Lemma nothing_online_no_report_witness :
  (exists v, scan nothing_online 7 = Ret (set_pfn v initial))
  ∧ run_script nothing_online 7 = Stop ZeroDivisionError.
Proof.
  apply (nothing_online_no_report nothing_online 7).
  intros x Hx. reflexivity.
Defined.

End CoarseInvariantInstances.

(** ** The report: free pages and region counts *)

Section CoarseReport.
Import Coarse Coalesce Snapshots Vocabulary.

Lemma free_pages_fit (M U : list Z) :
  Forall2 fits_block M U ->
  free_pages M U = Ret (zip_with free_of M U).
Proof.
  induction 1 as [|m u M U Hmu _ IH]; [reflexivity|].
  simpl. unfold py_assert, mbind, run_bind. unfold fits_block in Hmu.
  destruct (Z.geb_spec (512 - m - u) 0) as [_|Hneg]; [|lia].
  rewrite IH. reflexivity.
Qed.

Lemma free_pages_overfull (M U : list Z) :
  length M = length U -> ¬ Forall2 fits_block M U ->
  free_pages M U = Stop (AssertionError 299).
Proof.
  revert M. induction U as [|u U IH]; intros [|m M] Hlen Hnot;
    simpl in *; try lia.
  - destruct Hnot. constructor.
  - unfold py_assert, mbind, run_bind.
    destruct (Z.geb_spec (512 - m - u) 0) as [Hok|Hneg]; [|reflexivity].
    rewrite IH; [reflexivity | lia |].
    intros HF. apply Hnot. constructor; [unfold fits_block; lia | exact HF].
Qed.

(** X15.  Over two sample arrays of the same length, the loop of lines
    293-300 returns [512 - movable - unmovable] for every block, none of
    them negative, when every block's two samples add up to at most 512;
    otherwise it stops on the assertion of line 299. *)
Theorem free_pages_checked (M U : list Z) :
  length M = length U ->
  (Forall2 fits_block M U
   ∧ free_pages M U = Ret (zip_with free_of M U)
   ∧ Forall (fun x => 0 <= x) (zip_with free_of M U)
   ∧ length (zip_with free_of M U) = length U)
  ∨ (¬ Forall2 fits_block M U
     ∧ free_pages M U = Stop (AssertionError 299)).
Proof.
  intros Hlen.
  assert (Hdec : Forall2 fits_block M U ∨ ¬ Forall2 fits_block M U).
  { clear Hlen. revert U. induction M as [|m M IH]; intros [|u U].
    - left. constructor.
    - right. inversion 1.
    - right. inversion 1.
    - destruct (Z.le_gt_cases (m + u) 512) as [Hle|Hgt].
      + destruct (IH U) as [HF|HF].
        * left. constructor; assumption.
        * right. inversion 1; subst. contradiction.
      + right. inversion 1; subst. unfold fits_block in *. lia. }
  destruct Hdec as [HF|HF].
  - left. split; [exact HF|]. split; [apply free_pages_fit; exact HF|]. split.
    + clear Hlen. induction HF as [|m u M U Hmu _ IH]; simpl; constructor.
      * unfold free_of, fits_block in *. lia.
      * exact IH.
    + rewrite length_zip_with. lia.
  - right. split; [exact HF|]. apply free_pages_overfull; assumption.
Qed.

Lemma free_pages_checked_witness :
  (Forall2 fits_block [511; 100] [1; 200]
   ∧ free_pages [511; 100] [1; 200] = Ret (zip_with free_of [511; 100] [1; 200])
   ∧ Forall (fun x => 0 <= x) (zip_with free_of [511; 100] [1; 200])
   ∧ length (zip_with free_of [511; 100] [1; 200]) = length [1; 200])
  ∨ (¬ Forall2 fits_block [511; 100] [1; 200]
     ∧ free_pages [511; 100] [1; 200] = Stop (AssertionError 299)).
Proof. apply (free_pages_checked [511; 100] [1; 200]). reflexivity. Defined.

Lemma size_list_to_set_le (l : list Z) :
  (size (list_to_set l : gset Z) <= length l)%nat.
Proof.
  induction l as [|x l IH].
  - rewrite list_to_set_nil, size_empty. simpl. lia.
  - rewrite list_to_set_cons. simpl length.
    pose proof (size_union_alt ({[ x ]} : gset Z) (list_to_set l)) as Hu.
    pose proof (subseteq_size (list_to_set l ∖ {[ x ]}) (list_to_set l : gset Z)
                  ltac:(intros y Hy; apply elem_of_difference in Hy; apply Hy))
      as Hd.
    rewrite size_singleton in Hu. lia.
Qed.

Lemma assemble_counts (prev : gset Z) (orders : list N) (j : nat) i n :
  assemble prev orders !! j = Some (i, n) ->
  orders !! j = Some i ∧ (n * 2 ^ S j <= size prev)%nat.
Proof.
  revert prev j. induction orders as [|o orders IH]; intros prev j; simpl.
  - destruct j; discriminate.
  - pose proof (build_list_twice prev o) as Hhalf.
    destruct j as [|j]; simpl.
    + intros E; inversion E; subst. split; [reflexivity | simpl; lia].
    + intros E. apply IH in E as (Ho & Hn). split; [exact Ho|].
      simpl in Hn |- *. revert Hn. generalize (2 ^ j)%nat. intros q Hn. nia.
Qed.

Lemma bind_ret {A B} (m : run A) (k : A -> run B) (r : B) :
  m ≫= k = Ret r -> exists a, m = Ret a ∧ k a = Ret r.
Proof.
  destruct m as [a| |]; simpl; try discriminate. intros E. eauto.
Qed.

Lemma final_report_lines (s : state) (r : report) :
  final_report s = Ret r ->
  movable_order r
  = (9%N, length (movable_2mb_pfns s))
      :: assemble (list_to_set (movable_2mb_pfns s)) movable_range
  ∧ free_order r
    = (10%N, length (free_4mb_pfns s))
        :: assemble (list_to_set (free_4mb_pfns s)) free_range
  ∧ rep_regular_blocks r = regular_blocks s
  ∧ rep_unmovable_blocks r
    = Z.of_nat (length (unmovable_pages_in_unmovable_blocks s))
  ∧ rep_unmovable_pages r
    = foldr Z.add 0 (unmovable_pages_in_unmovable_blocks s).
Proof.
  unfold final_report. cbv zeta. intros E.
  repeat (apply bind_ret in E as (? & _ & E)).
  destruct (Stats.fadd _ _); try discriminate.
  all: pose proof (f_equal (fun x => match x with
                                     | Ret r' => movable_order r'
                                     | _ => []
                                     end) E) as E1.
  all: pose proof (f_equal (fun x => match x with
                                     | Ret r' => free_order r'
                                     | _ => []
                                     end) E) as E2.
  all: pose proof (f_equal (fun x => match x with
                                     | Ret r' => rep_regular_blocks r'
                                     | _ => 0
                                     end) E) as E3.
  all: pose proof (f_equal (fun x => match x with
                                     | Ret r' => rep_unmovable_blocks r'
                                     | _ => 0
                                     end) E) as E4.
  all: pose proof (f_equal (fun x => match x with
                                     | Ret r' => rep_unmovable_pages r'
                                     | _ => 0
                                     end) E) as E5.
  all: clear E; cbv beta iota in E1, E2, E3, E4, E5.
  all: cbn [movable_order free_order rep_regular_blocks rep_unmovable_blocks
            rep_unmovable_pages] in E1, E2, E3, E4, E5.
  all: repeat split; symmetry; assumption.
Qed.

(** X16.  In a report that is printed, the line for order [9 + j] of the
    movable pass and the line for order [10 + j] of the free pass carry a
    count that, doubled [j] times, is at most the number of PFNs collected
    by the walk: each order's regions are at most half of the order
    before.  The movable pass prints ten lines and the free pass nine. *)
Theorem region_counts_halve (s : state) (r : report) :
  final_report s = Ret r ->
  length (movable_order r) = 10%nat ∧ length (free_order r) = 9%nat
  ∧ (forall j i n, movable_order r !! j = Some (i, n) ->
       i = N.of_nat (9 + j) ∧ (n * 2 ^ j <= length (movable_2mb_pfns s))%nat)
  ∧ (forall j i n, free_order r !! j = Some (i, n) ->
       i = N.of_nat (10 + j) ∧ (n * 2 ^ j <= length (free_4mb_pfns s))%nat).
Proof.
  intros Hr. apply final_report_lines in Hr as (Hm & Hf & _).
  rewrite Hm, Hf. split; [reflexivity|]. split; [reflexivity|].
  split; intros [|j] i n E; cbn -[assemble movable_range free_range] in E.
  - inversion E; subst. split; [reflexivity | simpl; lia].
  - apply assemble_counts in E as (Ho & Hn).
    pose proof (size_list_to_set_le (movable_2mb_pfns s)).
    split; [|lia].
    do 9 (destruct j as [|j]; [inversion Ho; reflexivity|]). discriminate.
  - inversion E; subst. split; [reflexivity | simpl; lia].
  - apply assemble_counts in E as (Ho & Hn).
    pose proof (size_list_to_set_le (free_4mb_pfns s)).
    split; [|lia].
    do 8 (destruct j as [|j]; [inversion Ho; reflexivity|]). discriminate.
Qed.

Lemma region_counts_halve_witness :
  exists r,
    final_report (add_regular 1 (append_movable_2mb 0 initial)) = Ret r
    ∧ length (movable_order r) = 10%nat.
Proof.
  eexists. split; [vm_compute; reflexivity|].
  refine (proj1 (region_counts_halve
                   (add_regular 1 (append_movable_2mb 0 initial)) _ _)).
  vm_compute. reflexivity.
Defined.

End CoarseReport.

(** ** More on the coalescing step and the percentile *)

Section CoalesceLaws.
Import Coalesce.

Lemma low_bits_clear (q : Z) (k : Z) :
  0 <= k -> (q mod 2 ^ k = 0 <-> forall n, 0 <= n < k -> Z.testbit q n = false).
Proof.
  intros Hk. rewrite <- Z.land_ones by exact Hk. split.
  - intros E n Hn.
    assert (Hb : Z.testbit (Z.land q (Z.ones k)) n = false)
      by (rewrite E; apply Z.bits_0).
    rewrite Z.land_spec, Z.ones_spec_low, andb_true_r in Hb by lia. exact Hb.
  - intros H. apply Z.bits_inj'. intros n Hn.
    rewrite Z.land_spec, Z.bits_0.
    destruct (Z.lt_ge_cases n k).
    + rewrite H by lia. reflexivity.
    + rewrite Z.ones_spec_high by lia. apply andb_false_r.
Qed.

(** X17.  The coalescing step keeps regions aligned: when every PFN of the
    set is a multiple of [1 << k], every PFN of [build_list S k] is a
    multiple of [1 << (k + 1)]. *)
Theorem build_list_aligned (S : gset Z) (k : N) :
  (forall p, p ∈ S -> p mod Z.shiftl 1 (Z.of_N k) = 0) ->
  forall q, q ∈ build_list S k -> q mod Z.shiftl 1 (Z.of_N k + 1) = 0.
Proof.
  intros Hal q Hq. apply elem_of_build_list in Hq as (HqS & _ & Hgt).
  apply buddy_gt_iff in Hgt. specialize (Hal q HqS).
  rewrite Z.shiftl_1_l in *.
  apply low_bits_clear; [lia|]. intros n Hn.
  destruct (Z.eq_dec n (Z.of_N k)) as [->|Hne]; [exact Hgt|].
  apply (proj1 (low_bits_clear q (Z.of_N k) ltac:(lia)) Hal). lia.
Qed.

Lemma build_list_aligned_witness :
  1024 ∈ build_list {[ 512; 1024; 1536 ]} 9
  ∧ 1024 mod Z.shiftl 1 (Z.of_N 9 + 1) = 0.
Proof.
  assert (Hin : 1024 ∈ build_list {[ 512; 1024; 1536 ]} 9).
  { apply (bool_decide_unpack (1024 ∈ build_list {[ 512; 1024; 1536 ]} 9)).
    vm_compute. exact I. }
  split; [exact Hin|].
  apply (build_list_aligned {[ 512; 1024; 1536 ]} 9); [|exact Hin].
  intros p Hp. apply elem_of_union in Hp as [Hp|Hp];
    [apply elem_of_union in Hp as [Hp|Hp]|];
    apply elem_of_singleton in Hp; subst p; reflexivity.
Defined.

(** X18.  The coalescing step gives nothing on the empty set, grows with
    its input, and gives nothing when applied twice at the same order, the
    buddy of a kept PFN never being kept. *)
Theorem build_list_laws (S T : gset Z) (k : N) :
  build_list ∅ k = ∅
  ∧ (S ⊆ T -> build_list S k ⊆ build_list T k)
  ∧ build_list (build_list S k) k = ∅
  ∧ (forall p, p ∈ build_list S k -> buddy_of p k ∉ build_list S k).
Proof.
  assert (Hbuddy : forall p, p ∈ build_list S k -> buddy_of p k ∉ build_list S k).
  { intros p Hp Hb.
    apply elem_of_build_list in Hp as (_ & _ & Hp).
    apply elem_of_build_list in Hb as (_ & _ & Hb).
    apply buddy_gt_iff in Hp, Hb.
    unfold buddy_of in Hb.
    rewrite Z.lxor_spec, pow2_testbit, Hp, bool_decide_true in Hb by lia.
    discriminate. }
  split; [|split; [|split]].
  - apply set_eq. intros x. rewrite elem_of_build_list. unfold coalescible.
    rewrite !elem_of_empty. tauto.
  - intros Hsub x. rewrite !elem_of_build_list. unfold coalescible.
    intros (H1 & H2 & H3). split; [apply Hsub, H1|]. split; [apply Hsub, H2|].
    exact H3.
  - apply set_eq. intros x. rewrite elem_of_empty. split; [|tauto].
    intros Hx. apply elem_of_build_list in Hx as (Hx & Hb & _).
    exact (Hbuddy x Hx Hb).
  - exact Hbuddy.
Qed.

End CoalesceLaws.

Section PercentileEdges.
Import Stats.

(** X19.  The percentile of a one-element list is that element (through
    [key]) for every finite percent, zero included; a percent that is
    infinite or not a number makes the rank not a number, and taking its
    floor raises [ValueError]. *)
Theorem percentile_of_singleton (x : Z) (p : spec_float) (key : Z -> Z) :
  percentile [x] p key
  = match p with
    | S754_zero _ | S754_finite _ _ _ => Ret (Some (key x))
    | S754_infinity _ | S754_nan => Stop ValueError
    end.
Proof. destruct p; reflexivity. Qed.

End PercentileEdges.

(** * Further properties of the fine script *)

Section FineInvariants.
Import Fine Snapshots Vocabulary.
Variable P : prog.

Lemma account_accounted pfn mt pg t nr b :
  t <> BUDDY -> accounted (account P pfn mt pg t nr b) = accounted b + nr.
Proof.
  intros Ht. unfold accounted, account, print_if.
  destruct t; try contradiction;
    repeat match goal with
           | |- context [if ?c then _ else _] => destruct c
           end; simpl; lia.
Qed.

Lemma block_body_accounted pfn mt b b' :
  block_body P pfn mt b = Go b' ->
  accounted b' - i b' = accounted b - i b.
Proof.
  unfold block_body. case_bool_decide as Hty.
  - destruct (_ <=? _)%N; [|discriminate].
    intros E; inversion E; subst. unfold accounted. simpl. lia.
  - destruct (_ >? 512); [discriminate|].
    intros E; inversion E; subst.
    set (b1 := account P pfn mt _ _ _ b).
    change (accounted (add_i (Z.pos (compound_nr (pfn_to_page P (pfn + i b)))) b1))
      with (accounted b1).
    change (i (add_i (Z.pos (compound_nr (pfn_to_page P (pfn + i b)))) b1))
      with (i b1 + Z.pos (compound_nr (pfn_to_page P (pfn + i b)))).
    unfold b1. rewrite account_i, account_accounted by exact Hty. lia.
Qed.

Lemma block_loop_accounted fuel pfn mt size b b' :
  block_loop P fuel pfn mt size b = Go b' ->
  accounted b' - i b' = accounted b - i b ∧ size <= i b'.
Proof.
  revert b. induction fuel as [|fuel IH]; intros b; simpl.
  - destruct (Z.ltb_spec (i b) size); [discriminate|].
    intros E; inversion E; subst. lia.
  - destruct (Z.ltb_spec (i b) size).
    + destruct (block_body P pfn mt b) as [b1| |] eqn:Hb; simpl; try discriminate.
      intros E. apply IH in E. apply block_body_accounted in Hb. lia.
    + intros E; inversion E; subst. lia.
Qed.

(** X20.  A block's walk tallies every frame it passes exactly once: when
    the inner loop ends, the six tallies add up to the offset [i] reached,
    which is at least the block size (a run is never cut at the block
    end). *)
Theorem fine_block_tallies_every_frame (fuel : nat) (pfn mt size : Z)
    (s : state) (b : block) :
  block_loop P fuel pfn mt size (fresh_block s) = Go b ->
  buddy b + lru b + reserved b + slab b + kmem b + other b = i b
  ∧ size <= i b.
Proof.
  intros Hb. apply block_loop_accounted in Hb as (Hsum & Hsize).
  unfold accounted in Hsum. simpl in Hsum. lia.
Qed.

Lemma account_flag pfn mt pg t nr b :
  0 < nr -> flag_agrees b -> flag_agrees (account P pfn mt pg t nr b).
Proof.
  intros Hnr (Hk & Ho & Hf). unfold flag_agrees, account, print_if.
  destruct t;
    repeat match goal with
           | |- context [if ?c then _ else _] => destruct c
           end; simpl; repeat split; try lia; try tauto;
    try (intros _; lia); try (apply Hf); try (intros H; apply Hf in H; lia).
Qed.

Lemma block_body_flag pfn mt b b' :
  flag_agrees b -> block_body P pfn mt b = Go b' -> flag_agrees b'.
Proof.
  intros Hb. unfold block_body. case_bool_decide as Hty.
  - destruct (_ <=? _)%N; [|discriminate].
    intros E; inversion E; subst. exact Hb.
  - destruct (_ >? 512); [discriminate|].
    intros E; inversion E; subst.
    pose proof (account_flag pfn mt (pfn_to_page P (pfn + i b))
                  (page_type P (pfn_to_page P (pfn + i b))
                     (pfn_to_page P (pfn + i b)))
                  (Z.pos (compound_nr (pfn_to_page P (pfn + i b)))) b
                  ltac:(lia) Hb) as H.
    exact H.
Qed.

(** X21.  A block is flagged as having nonmovable content exactly when it
    tallied an unreclaimable-slab page, a kernel-memcg page or a page of
    no other kind: at the end of the inner loop the flag is set if and only
    if the [kmem] and [other] tallies are not both zero. *)
Theorem nonmovable_flag_follows_tallies (fuel : nat) (pfn mt size : Z)
    (s : state) (b : block) :
  block_loop P fuel pfn mt size (fresh_block s) = Go b ->
  0 <= kmem b ∧ 0 <= other b
  ∧ (block_has_nonmovable b = true <-> 0 < kmem b + other b).
Proof.
  assert (H0 : flag_agrees (fresh_block s)).
  { unfold flag_agrees. simpl. repeat split; try lia; discriminate. }
  revert H0. generalize (fresh_block s). clear s.
  induction fuel as [|fuel IH]; intros b0 H0; simpl.
  - destruct (i b0 <? size); [discriminate|].
    intros E; inversion E; subst. exact H0.
  - destruct (i b0 <? size).
    + destruct (block_body P pfn mt b0) as [b1| |] eqn:Hb; simpl; try discriminate.
      apply IH. eapply block_body_flag; eassumption.
    + intros E; inversion E; subst. exact H0.
Qed.

Lemma dict_total_insert (d : gmap Z Z) (k v : Z) :
  dict_total (<[ k := v ]> d) = dict_total d - default 0 (d !! k) + v.
Proof.
  unfold dict_total.
  assert (Hcomm : forall (m : gmap Z Z) (j1 j2 z1 z2 y : Z),
            j1 <> j2 -> m !! j1 = Some z1 -> m !! j2 = Some z2 ->
            z1 + (z2 + y) = z2 + (z1 + y)) by (intros; lia).
  destruct (d !! k) as [x|] eqn:Hk; simpl.
  - rewrite <- (insert_delete_eq d k v).
    rewrite map_fold_insert_L; [|apply Hcomm | apply lookup_delete_eq].
    rewrite (map_fold_delete_L _ _ k x d); [lia | apply Hcomm | exact Hk].
  - rewrite map_fold_insert_L; [lia | apply Hcomm | exact Hk].
Qed.

Lemma tabulate_counters mt b s :
  counters_within P s -> pfn s <= 0x400 -> counters_within P (tabulate P mt b s).
Proof.
  unfold counters_within, tabulate.
  intros (H1 & H2 & H3 & H4 & H5 & H6 & H7 & H8 & H9) Hle.
  cbn [pb blocks_with_nonmovable unmovable_with_slablru movable_with_nonlru
       reclaimable_with_nonslab pfn types].
  change (Z.shiftl 1 pageblock_order) with 512.
  assert (Ht : dict_total
                 match types s !! mt with
                 | Some n => <[ mt := n + 1 ]> (types s)
                 | None => <[ mt := 1 ]> (types s)
                 end = pb s + 1).
  { destruct (types s !! mt) as [n|] eqn:Hm;
      rewrite dict_total_insert, Hm; simpl; lia. }
  rewrite Ht.
  destruct (mt =? MIGRATE_UNMOVABLE P), (mt =? MIGRATE_RECLAIMABLE P),
    (mt =? MIGRATE_MOVABLE P), (block_has_nonmovable b),
    (truthy (slab b)), (truthy (lru b)), (truthy (kmem b)), (truthy (other b));
    cbn [negb andb orb]; lia.
Qed.

Lemma skip_section_counters s :
  counters_within P s -> counters_within P (skip_section s).
Proof.
  unfold counters_within, skip_section.
  intros (H1 & H2 & H3 & H4 & H5 & H6 & H7 & H8 & H9).
  cbn [pb blocks_with_nonmovable unmovable_with_slablru movable_with_nonlru
       reclaimable_with_nonslab pfn types].
  change PAGES_PER_SECTION with 32768. lia.
Qed.

Lemma scan_loop_counters fuel s s' :
  counters_within P s -> scan_loop P fuel s = Go s' -> counters_within P s'.
Proof.
  revert s. induction fuel as [|fuel IH]; intros s Hs; simpl.
  - destruct (pfn s <=? 1024); [discriminate|].
    intros E; inversion E; subst; exact Hs.
  - destruct (Z.leb_spec (pfn s) 1024) as [Hle|Hgt];
      [|intros E; inversion E; subst; exact Hs].
    destruct (scan_body P s) as [s1| |] eqn:Hb; simpl; try discriminate.
    apply IH. revert Hb. unfold scan_body.
    destruct (__pfn_to_section P (pfn s)); [|discriminate].
    destruct (negb _).
    + intros E; inversion E; subst. apply skip_section_counters. exact Hs.
    + destruct (get_pageblock_migratetype P (pfn s)); [|discriminate].
      unfold mbind, outcome_bind.
      match goal with |- context [block_loop P ?f ?a ?m ?z ?b] =>
        destruct (block_loop P f a m z b) as [b'|e' out'|] end;
        try discriminate.
      intros E; inversion E; subst. apply tabulate_counters; assumption.
Qed.

Lemma initial_counters : counters_within P (initial P).
Proof.
  unfold counters_within, initial.
  cbn [pb blocks_with_nonmovable unmovable_with_slablru movable_with_nonlru
       reclaimable_with_nonslab pfn types].
  unfold dict_total. rewrite map_fold_empty. lia.
Qed.

(** X22.  In a fine scan that runs to its end, the counters of the summary
    stay within the block count: the blocks with nonmovable content, and
    the blocks with a finding (at most one of the three kinds per block),
    are at most [pb]; and when [min_low_pfn] is not negative no more than
    three blocks are classified. *)
Theorem fine_counters_within_blocks (s : state) :
  0 <= min_low_pfn P -> scan P = Go s ->
  0 <= pb s <= 3
  ∧ 0 <= blocks_with_nonmovable s <= pb s
  ∧ unmovable_with_slablru s + movable_with_nonlru s
    + reclaimable_with_nonslab s <= pb s.
Proof.
  intros Hmin Hs.
  apply (scan_loop_counters _ _ _ initial_counters) in Hs.
  destruct Hs as (H1 & H2 & H3 & H4 & H5 & H6 & H7 & H8 & H9). lia.
Qed.

(** X23.  The per-migratetype block counts of the [types] dictionary add up
    to the total block count [pb]. *)
Theorem fine_types_add_up (s : state) :
  scan P = Go s -> dict_total (types s) = pb s.
Proof.
  intros Hs. apply (scan_loop_counters _ _ _ initial_counters) in Hs.
  apply Hs.
Qed.

(** X24.  The migratetype read for a block is a three-bit value, between 0
    and 7, and is missing exactly when the root of the frame's section is
    null. *)
Theorem fine_migratetype_range (pfn : Z) :
  (forall mt, get_pageblock_migratetype P pfn = Some mt -> 0 <= mt <= 7)
  ∧ (get_pageblock_migratetype P pfn = None
     <-> mem_section_root P (SECTION_NR_TO_ROOT P (pfn_to_section_nr pfn)) = None).
Proof.
  unfold get_pageblock_migratetype, get_pfnblock_flags_mask,
    __pfn_to_section, __nr_to_section.
  destruct (mem_section_root P _) as [root|]; split.
  - intros mt E; inversion E; subst.
    apply (land_le_mask _ MIGRATETYPE_MASK). discriminate.
  - split; discriminate.
  - discriminate.
  - tauto.
Qed.

(** X25.  The fine scan at the edges of its range: it does nothing when
    [min_low_pfn] is above [0x400]; it stops with an attribute error, having
    printed only the start frame, when the root of the first section is
    null; and when the first section is not valid it prints that it skips
    it, moves one section on and ends with no block classified. *)
Theorem fine_scan_edges :
  (0x400 < min_low_pfn P -> scan P = Go (initial P))
  ∧ (min_low_pfn P <= 0x400 ->
     __pfn_to_section P (min_low_pfn P) = None ->
     scan P = Halt AttributeError [print_pfn (min_low_pfn P)])
  ∧ (forall sec,
       0 <= min_low_pfn P <= 0x400 ->
       __pfn_to_section P (min_low_pfn P) = Some sec ->
       valid_section sec = false ->
       scan P = Go (skip_section (initial P))
       ∧ pb (skip_section (initial P)) = 0
       ∧ printed (skip_section (initial P))
         = [print_pfn (min_low_pfn P);
            skipping_invalid_section (min_low_pfn P)]).
Proof.
  unfold scan. split; [|split].
  - intros Hgt. destruct (Z.to_nat _); simpl;
      (destruct (Z.leb_spec (min_low_pfn P) 1024); [lia | reflexivity]).
  - intros Hle Hnone.
    destruct (Z.to_nat (0x400 + 1 - min_low_pfn P)) as [|fuel] eqn:Hf; [lia|].
    simpl. destruct (Z.leb_spec (min_low_pfn P) 1024); [|lia].
    unfold scan_body. cbn [pfn initial]. rewrite Hnone. reflexivity.
  - intros sec Hrange Hsec Hinv.
    split; [|split; reflexivity].
    destruct (Z.to_nat (0x400 + 1 - min_low_pfn P)) as [|fuel] eqn:Hf; [lia|].
    simpl. destruct (Z.leb_spec (min_low_pfn P) 1024); [|lia].
    unfold scan_body. cbn [pfn initial]. rewrite Hsec, Hinv. cbn [negb].
    unfold mbind, outcome_bind.
    destruct fuel; simpl;
      change PAGES_PER_SECTION with 32768;
      (destruct (Z.leb_spec (min_low_pfn P + 32768) 1024); [lia | reflexivity]).
Qed.

End FineInvariants.

Section FineInvariantInstances.
Import Fine Snapshots Cases Vocabulary.

Lemma fine_block_tallies_every_frame_witness :
  exists b,
    block_loop fine_mixed 512 0 1 512 (fresh_block (initial fine_mixed)) = Go b
    ∧ buddy b + lru b + reserved b + slab b + kmem b + other b = i b
    ∧ 512 <= i b.
Proof.
  eexists. split; [vm_compute; reflexivity|].
  apply (fine_block_tallies_every_frame fine_mixed 512 0 1 512
           (initial fine_mixed)).
  vm_compute. reflexivity.
Defined.

Lemma nonmovable_flag_follows_tallies_witness :
  exists b,
    block_loop fine_mixed 512 0 1 512 (fresh_block (initial fine_mixed)) = Go b
    ∧ block_has_nonmovable b = true
    ∧ 0 <= kmem b ∧ 0 <= other b
    ∧ (block_has_nonmovable b = true <-> 0 < kmem b + other b).
Proof.
  eexists. split; [vm_compute; reflexivity|]. split; [reflexivity|].
  apply (nonmovable_flag_follows_tallies fine_mixed 512 0 1 512
           (initial fine_mixed)).
  vm_compute. reflexivity.
Defined.

Lemma fine_counters_within_blocks_witness :
  exists s,
    scan fine_mixed = Go s
    ∧ 0 <= pb s <= 3
    ∧ 0 <= blocks_with_nonmovable s <= pb s
    ∧ unmovable_with_slablru s + movable_with_nonlru s
      + reclaimable_with_nonslab s <= pb s.
Proof.
  eexists. split; [vm_compute; reflexivity|].
  apply (fine_counters_within_blocks fine_mixed).
  - simpl. lia.
  - vm_compute. reflexivity.
Defined.

Lemma fine_types_add_up_witness :
  exists s, scan fine_mixed = Go s ∧ dict_total (types s) = pb s.
Proof.
  eexists. split; [vm_compute; reflexivity|].
  apply (fine_types_add_up fine_mixed). vm_compute. reflexivity.
Defined.

End FineInvariantInstances.

(** * The coarse walk: what is on record and how it can stop *)

Section CoarseRecords.
Import Coarse Snapshots Cases Vocabulary.
Variable P : prog.

Lemma block_body_on_record bs be s s' :
  regions_on_record s -> block_body P bs be s = Ret s' -> regions_on_record s'.
Proof.
  unfold regions_on_record, block_body, buddy_branch, compound_branch,
    py_assert, mbind, run_bind.
  intros Hs.
  repeat match goal with
         | |- context [if ?c then _ else _] => destruct c; simpl
         end;
    intros E; inversion E; subst; simpl; rewrite ?length_app; simpl; lia.
Qed.

(** X26.  After any scan that returns, every regular block counted has a
    PFN in the order-9 list and every order-10 free region has its regular
    block: [len(free_4mb_pfns) <= regular_blocks <= len(movable_2mb_pfns)]. *)
Theorem regions_are_on_record (b : Z) (s : state) :
  scan P b = Ret s ->
  0 <= Z.of_nat (length (free_4mb_pfns s)) <= regular_blocks s
  ∧ regular_blocks s <= Z.of_nat (length (movable_2mb_pfns s)).
Proof.
  unfold scan. apply (scan_loop_keeps P regions_on_record).
  - apply block_body_on_record.
  - intros bs s0 Hs. unfold regions_on_record, aggregate in *.
    destruct (reserved_pages s0 =? 512); [exact Hs|].
    destruct (unmovable_pages s0 =? 0); simpl; [|exact Hs].
    rewrite ?length_app. simpl. lia.
  - intros s0 Hs. exact Hs.
  - intros s0 v Hs. exact Hs.
  - intros s0 Hs. unfold regions_on_record, fast_path in *. simpl.
    rewrite ?length_app. simpl. lia.
  - unfold regions_on_record. simpl. lia.
Qed.

Lemma block_body_stops bs be s e :
  block_body P bs be s = Stop e ->
  walk_assertion e
  ∧ (PageBuddy (pfn_to_page P (pfn s)) = true
     ∨ PageCompound P (pfn_to_page P (pfn s)) = true).
Proof.
  unfold walk_assertion, block_body.
  destruct (PageBuddy _) eqn:Hb.
  - unfold buddy_branch, py_assert, mbind, run_bind.
    repeat match goal with
           | |- context [if ?c then _ else _] => destruct c; simpl
           end;
      intros E; inversion E; subst; tauto.
  - destruct (PageCompound _ _) eqn:Hc.
    + unfold compound_branch, py_assert, mbind, run_bind.
      repeat match goal with
             | |- context [if ?c then _ else _] => destruct c; simpl
             end;
        intros E; inversion E; subst; tauto.
    + repeat match goal with
             | |- context [if ?c then _ else _] => destruct c; simpl
             end; discriminate.
Qed.

Lemma block_loop_stops fuel bs be s e :
  block_loop P fuel bs be s = Stop e ->
  walk_assertion e
  ∧ exists x, pfn s <= x < be
              ∧ (PageBuddy (pfn_to_page P x) = true
                 ∨ PageCompound P (pfn_to_page P x) = true).
Proof.
  revert s. induction fuel as [|fuel IH]; intros s; simpl.
  - destruct (pfn s <? be); discriminate.
  - destruct (Z.ltb_spec (pfn s) be) as [Hlt|Hge]; [|discriminate].
    destruct (block_body P bs be s) as [s1|e1|] eqn:Hb; simpl.
    + intros E. apply IH in E as (Ha & x & Hx & Hp).
      apply block_body_pfn in Hb.
      split; [exact Ha|]. exists x. split; [lia | exact Hp].
    + intros E; inversion E; subst.
      apply block_body_stops in Hb as (Ha & Hp).
      split; [exact Ha|]. exists (pfn s). split; [lia | exact Hp].
    + discriminate.
Qed.

(** X27.  Inside a block (lines 219-271) the walk can stop only on one of
    its three assertions, of lines 230, 243 and 254, and only at a free or
    a compound page among the frames it has still to pass; a block whose
    frames hold neither is walked to its end.  The section table is read by
    the outer loop, before the block is entered, and is no part of this. *)
Theorem walk_stops_only_on_assertions (fuel : nat) (bs be : Z) (s : state) :
  (forall e, block_loop P fuel bs be s = Stop e ->
     (e = AssertionError 230 ∨ e = AssertionError 243 ∨ e = AssertionError 254)
     ∧ exists x, pfn s <= x < be
                 ∧ (PageBuddy (pfn_to_page P x) = true
                    ∨ PageCompound P (pfn_to_page P x) = true))
  ∧ ((forall x, pfn s <= x < be ->
        PageBuddy (pfn_to_page P x) = false
        ∧ PageCompound P (pfn_to_page P x) = false) ->
     be - pfn s <= Z.of_nat fuel ->
     exists s', block_loop P fuel bs be s = Ret s' ∧ be <= pfn s').
Proof.
  split.
  - intros e Hs. exact (block_loop_stops _ _ _ _ _ Hs).
  - intros Hplain Hfuel. destruct (block_loop P fuel bs be s) as [s'|e|] eqn:Hs.
    + exists s'. split; [reflexivity|]. apply block_loop_pfn in Hs. lia.
    + apply block_loop_stops in Hs as (_ & x & Hx & Hp).
      destruct (Hplain x Hx) as (H1 & H2). destruct Hp; congruence.
    + exfalso. revert Hs. apply block_loop_fuel. exact Hfuel.
Qed.

(** X28.  In a block that is classified, the three tallies never exceed the
    frames the walk passed over: at the end of the block they add up to at
    most the distance from the block start to the cursor, and so to at most
    512 when the last run ends within 512 frames of the start. *)
Theorem tallies_within_walked_frames (b : Z) (s s' : state) :
  pfn_online P (pfn s) = true -> pfn s <= b ->
  scan_body P b s = Ret s' ->
  movable_pages s' + unmovable_pages s' + reserved_pages s' <= pfn s' - pfn s
  ∧ (pfn s' <= pfn s + 512 ->
     movable_pages s' + unmovable_pages s' + reserved_pages s' <= 512).
Proof.
  intros Hon Hb. unfold scan_body. rewrite Hon. cbn [negb].
  cbn [pfn set_unmovable_pages set_movable_pages set_reserved_pages].
  destruct (Z.gtb_spec (pfn s) b) as [Hgt|_]; [lia|].
  unfold mbind, run_bind.
  match goal with |- context [block_loop P ?f ?a ?m ?st] =>
    destruct (block_loop P f a m st) as [s2|e2|] eqn:Hl end;
    try discriminate.
  intros E; inversion E; subst.
  apply block_loop_tallies in Hl. simpl in Hl.
  assert (Hagg : movable_pages (aggregate (pfn s) s2) = movable_pages s2
                 ∧ unmovable_pages (aggregate (pfn s) s2) = unmovable_pages s2
                 ∧ reserved_pages (aggregate (pfn s) s2) = reserved_pages s2).
  { unfold aggregate. destruct (reserved_pages s2 =? 512); [tauto|].
    destruct (unmovable_pages s2 =? 0); simpl; tauto. }
  destruct Hagg as (-> & -> & ->). rewrite aggregate_pfn. lia.
Qed.

End CoarseRecords.

Section CoarseRecordInstances.
Import Coarse Snapshots Cases Vocabulary.

Lemma regions_are_on_record_witness :
  exists s,
    scan free_4mb (2 ^ 64) = Ret s
    ∧ 0 <= Z.of_nat (length (free_4mb_pfns s)) <= regular_blocks s
    ∧ regular_blocks s <= Z.of_nat (length (movable_2mb_pfns s)).
Proof.
  eexists. split; [vm_compute; reflexivity|].
  apply (regions_are_on_record free_4mb (2 ^ 64)). vm_compute. reflexivity.
Defined.

Lemma tallies_within_walked_frames_witness :
  exists s',
    scan_body four_blocks (2 ^ 64) (set_pfn 1024 initial) = Ret s'
    ∧ movable_pages s' + unmovable_pages s' + reserved_pages s'
      <= pfn s' - pfn (set_pfn 1024 initial).
Proof.
  eexists. split; [vm_compute; reflexivity|].
  refine (proj1 (tallies_within_walked_frames four_blocks (2 ^ 64)
                   (set_pfn 1024 initial) _ _ _ _)).
  - reflexivity.
  - simpl. lia.
  - vm_compute. reflexivity.
Defined.

End CoarseRecordInstances.
